(** * QRIS payload parsing and multi-strategy QR scanning

    A shallow embedding of [parseQRIS], [parseSubTags] (src/unnamed/part_000)
    and [scanQRCode] (src/unnamed/part_001) of qris-makers-bulk.

    JavaScript strings are modelled as Rocq [string]s, one [ascii] per UTF-16
    code unit (payloads over the Latin-1 range).  A JS object used as a
    dictionary is a [gmap string string]. *)

From Stdlib Require Import ZArith Ascii String List Bool Lia.
From stdpp Require Import base gmap strings.
Import ListNotations.

Open Scope Z_scope.

(* ------------------------------------------------------------------ *)
(** ** JavaScript primitives *)

Module JS.

(** [String.prototype.substr(start, length)] (ECMA-262 B.2.3.1): a negative
    start counts from the end, the length is clamped to [0, size]. *)
Definition substr (s : string) (start len : Z) : string :=
  let cs := list_ascii_of_string s in
  let size := Z.of_nat (List.length cs) in
  let st := if start <? 0 then Z.max (size + start) 0 else Z.min start size in
  let l := Z.min (Z.max len 0) size in
  let e := Z.min (st + l) size in
  string_of_list_ascii (List.firstn (Z.to_nat (e - st)) (List.skipn (Z.to_nat st) cs)).

(** [String.prototype.startsWith(p)] *)
Definition startsWith (s p : string) : bool := String.prefix p s.

(** A JS number as far as these functions produce them: [NaN], or an
    integer-valued double given by its sign (negative zero included) and
    its magnitude. *)
Inductive number :=
| NaN
| Num (neg : bool) (mag : Z).

(** Rounding a non-negative integer to the nearest double (ties to even):
    the [𝔽(...)] conversion at the end of [parseInt]. *)
Definition round_double (n : Z) : Z :=
  let k := Z.log2 n in
  if k <? 53 then n
  else
    let sh := k - 52 in
    let q := Z.shiftr n sh in
    let r := n - Z.shiftl q sh in
    let half := Z.shiftl 1 (sh - 1) in
    if (half <? r) || ((r =? half) && Z.odd q)
    then Z.shiftl (q + 1) sh
    else Z.shiftl q sh.

(** StrWhiteSpaceChar within Latin-1: TAB, LF, VT, FF, CR, SP, NBSP. *)
Definition is_ws (c : ascii) : bool :=
  let n := nat_of_ascii c in
  (n =? 9)%nat || (n =? 10)%nat || (n =? 11)%nat || (n =? 12)%nat
  || (n =? 13)%nat || (n =? 32)%nat || (n =? 160)%nat.

Fixpoint trim_start (l : list ascii) : list ascii :=
  match l with
  | c :: r => if is_ws c then trim_start r else l
  | [] => []
  end.

Definition is_digit (c : ascii) : bool :=
  (48 <=? nat_of_ascii c)%nat && (nat_of_ascii c <=? 57)%nat.

(** Value of a decimal digit character. *)
Definition digit_value (c : ascii) : Z := Z.of_nat (nat_of_ascii c) - 48.

(** Value of a radix digit: 0-9, then a-z / A-Z as 10..35. *)
Definition digit_val (c : ascii) : option Z :=
  let n := Z.of_nat (nat_of_ascii c) in
  if (48 <=? n) && (n <=? 57) then Some (n - 48)
  else if (97 <=? n) && (n <=? 122) then Some (n - 87)
  else if (65 <=? n) && (n <=? 90) then Some (n - 55)
  else None.

(** The longest prefix of radix-[R] digits. *)
Fixpoint digits_prefix (R : Z) (l : list ascii) : list Z :=
  match l with
  | c :: r =>
      match digit_val c with
      | Some d => if d <? R then d :: digits_prefix R r else []
      | None => []
      end
  | [] => []
  end.

Definition digits_value (R : Z) (ds : list Z) : Z :=
  List.fold_left (fun acc d => acc * R + d) ds 0.

Definition is_x (c : ascii) : bool :=
  Ascii.eqb c "x"%char || Ascii.eqb c "X"%char.

(** [parseInt(string, radix)] (ECMA-262 19.2.5); [None] is an omitted
    radix. *)
Definition parseInt (s : string) (radix : option Z) : number :=
  let S0 := trim_start (list_ascii_of_string s) in
  let '(neg, S1) :=
    match S0 with
    | c :: r =>
        if Ascii.eqb c "-"%char then (true, r)
        else if Ascii.eqb c "+"%char then (false, r)
        else (false, S0)
    | [] => (false, S0)
    end in
  let '(R, stripPrefix) :=
    match radix with
    | None => (10, true)
    | Some r => if r =? 0 then (10, true) else (r, r =? 16)
    end in
  if (R <? 2) || (36 <? R) then NaN
  else
    let '(R', S2) :=
      if stripPrefix then
        match S1 with
        | c0 :: c1 :: r =>
            if Ascii.eqb c0 "0"%char && is_x c1 then (16, r) else (R, S1)
        | _ => (R, S1)
        end
      else (R, S1) in
    match digits_prefix R' S2 with
    | [] => NaN
    | ds => Num neg (round_double (digits_value R' ds))
    end.

(** A (non-NaN) number used as an integer operand. *)
Definition to_Z (n : number) : Z :=
  match n with
  | NaN => 0
  | Num neg m => if neg then - m else m
  end.

Definition isNaN (n : number) : bool :=
  match n with NaN => true | Num _ _ => false end.

(** Decimal digits of a non-negative integer. *)
Fixpoint dec_digits_aux (fuel : nat) (n : Z) (acc : list ascii) : list ascii :=
  match fuel with
  | O => acc
  | S f =>
      let acc' := ascii_of_nat (Z.to_nat (48 + n mod 10)) :: acc in
      if n <? 10 then acc' else dec_digits_aux f (n / 10) acc'
  end.

Definition dec_digits (n : Z) : list ascii :=
  dec_digits_aux (S (Z.to_nat (Z.log2 n))) n [].

(** Template-literal interpolation of a non-negative integer. *)
Definition show (n : Z) : string := string_of_list_ascii (dec_digits n).

(** Insert "." between groups of three, working on the reversed digits. *)
Fixpoint group_rev (l : list ascii) : list ascii :=
  match l with
  | a :: b :: c :: ((_ :: _) as rest) => a :: b :: c :: "."%char :: group_rev rest
  | _ => l
  end.

Definition group_thousands (n : Z) : string :=
  string_of_list_ascii (List.rev (group_rev (List.rev (dec_digits n)))).

(** Number of decimal digits of a positive integer. *)
Definition num_digits (m : Z) : Z := Z.of_nat (List.length (dec_digits m)).

(** The candidates [(s, e)] with [k] significant digits: for each magnitude
    [n] of [D - 1], [D], [D + 1] digits ([D] that of [m]), the two multiples
    of [10^e] ([e = n - k]) around [m], kept when [s] has exactly [k] digits
    and [s × 10^e] rounds to [m]. *)
Definition shortest_candidates (m k : Z) : list (Z * Z) :=
  let D := num_digits m in
  List.flat_map
    (fun n =>
       let e := n - k in
       if e <? 0 then []
       else
         let s0 := m / 10 ^ e in
         List.map (fun s => (s, e))
           (List.filter
              (fun s => (10 ^ (k - 1) <=? s) && (s <? 10 ^ k)
                        && (round_double (s * 10 ^ e) =? m))
              [s0; s0 + 1]))
    [D - 1; D; D + 1].

(** [a] is preferred to [b]: closer to [m], or as close with an even [s]. *)
Definition closer (m : Z) (a b : Z * Z) : bool :=
  let da := Z.abs (fst a * 10 ^ snd a - m) in
  let db := Z.abs (fst b * 10 ^ snd b - m) in
  (da <? db) || ((da =? db) && Z.even (fst a) && negb (Z.even (fst b))).

Fixpoint pick (m : Z) (best : Z * Z) (l : list (Z * Z)) : Z * Z :=
  match l with
  | [] => best
  | c :: l' => pick m (if closer m c best then c else best) l'
  end.

Fixpoint shortest_search (m : Z) (fuel : nat) (k : Z) : option (Z * Z) :=
  match fuel with
  | O => None
  | S f =>
      match shortest_candidates m k with
      | [] => shortest_search m f (k + 1)
      | c :: cs => Some (pick m c cs)
      end
  end.

(** [Number::toString]'s choice of digits (ECMA-262 6.1.6.1.20), which
    ICU's shortest formatting behind [toLocaleString] follows, for a
    positive integer-valued double [m]: the fewest significant digits [k]
    of a decimal [s × 10^e] that reads back as [m], the closest to [m]
    among those, the even [s] on a tie; the result is that decimal.  At
    [k] equal to the digit count of [m], [m] itself qualifies, so the
    search needs no more steps. *)
Definition shortest_decimal (m : Z) : Z :=
  if m <=? 0 then 0
  else
    match shortest_search m (Z.to_nat (num_digits m)) 1 with
    | Some (s, e) => s * 10 ^ e
    | None => m
    end.

(** [Number.prototype.toLocaleString('id-ID')] on the numbers above:
    the shortest round-trip digits, grouping separator ".", minimum
    grouping digits 1.  The magnitudes [parseQRIS] produces come from at
    most 99 digits, so they are finite. *)
Definition toLocaleString_idID (n : number) : string :=
  match n with
  | NaN => "NaN"
  | Num neg m => ((if neg then "-" else "") ++ group_thousands (shortest_decimal m))%string
  end.

(** A finite non-negative double as [(s, e)], of value [s × 2^e]. *)
Definition dbl : Type := Z * Z.

(** The double nearest to [p / q] ([0 <= p], [0 < q]), ties to even, for
    quotients in the normal range (all the quotients below are at least
    [2^-32]): [s] has 53 bits, or is [2^53] after rounding up. *)
Definition round_ratio (p q : Z) : dbl :=
  if p <=? 0 then (0, 0)
  else
    let L := Z.log2 p - Z.log2 q in
    let fl := if (if 0 <=? L then q * 2 ^ L <=? p else q <=? p * 2 ^ (- L))
              then L else L - 1 in
    let k := fl - 52 in
    let num := if 0 <=? k then p else p * 2 ^ (- k) in
    let den := if 0 <=? k then q * 2 ^ k else q in
    let s := num / den in
    let r := num mod den in
    if (den <? 2 * r) || ((2 * r =? den) && Z.odd s) then (s + 1, k) else (s, k).

(** [x * n] for a non-negative integer [n], rounded to a double. *)
Definition dbl_mul_int (x : dbl) (n : Z) : dbl :=
  let '(s, e) := x in
  if 0 <=? e then round_ratio (s * n * 2 ^ e) 1 else round_ratio (s * n) (2 ^ (- e)).

(** The integer part of a non-negative double. *)
Definition dbl_trunc (x : dbl) : Z :=
  let '(s, e) := x in
  if 0 <=? e then s * 2 ^ e else s / 2 ^ (- e).

End JS.

Import JS.

(* ------------------------------------------------------------------ *)
(** ** The EMVCo TLV loop *)

(** One iteration of the body of
    [while (index < qrisPayload.length) { ... }]: [None] is the [break]. *)
Definition tlv_step (payload : string) (index : Z) (tags : gmap string string)
  : option (Z * gmap string string) :=
  let id := substr payload index 2 in
  let lenStr := substr payload (index + 2) 2 in
  let length := parseInt lenStr (Some 10) in
  if isNaN length then None
  else
    let value := substr payload (index + 4) (to_Z length) in
    Some (index + 4 + to_Z length, <[id := value]> tags).

(** The loop itself, run for at most [fuel] iterations; [None] means the
    fuel ran out (the JS loop has not finished). *)
Fixpoint tlv_loop (fuel : nat) (payload : string) (index : Z)
    (tags : gmap string string) : option (gmap string string) :=
  match fuel with
  | O => None
  | S f =>
      if index <? Z.of_nat (String.length payload) then
        match tlv_step payload index tags with
        | None => Some tags
        | Some (index', tags') => tlv_loop f payload index' tags'
        end
      else Some tags
  end.

(** [parseSubTags(payload)] *)
Definition parseSubTags (fuel : nat) (payload : string)
  : option (gmap string string) :=
  tlv_loop fuel payload 0 ∅.

(* ------------------------------------------------------------------ *)
(** ** [parseQRIS] *)

(** The regular expression [/ID[0-9]{8,15}/]: [take_digits k l] is the
    greedy [[0-9]{0,k}] at the head of [l]. *)
Fixpoint take_digits (k : nat) (l : list ascii) : list ascii :=
  match k, l with
  | S k', c :: r =>
      if is_digit c then c :: take_digits k' r else []
  | _, _ => []
  end.

(** [qrisPayload.match(/ID[0-9]{8,15}/)]: the leftmost match, [None] for
    [null]. *)
Fixpoint match_nmid (l : list ascii) : option string :=
  match l with
  | c0 :: r =>
      let ds := match r with
                | c1 :: r' =>
                    if Ascii.eqb c0 "I"%char && Ascii.eqb c1 "D"%char
                    then take_digits 15 r' else []
                | [] => []
                end in
      if (8 <=? List.length ds)%nat
      then Some ("ID" ++ string_of_list_ascii ds)%string
      else match_nmid r
  | [] => None
  end.

(** JavaScript truthiness of an optional string field: [undefined] and
    [""] are falsy. *)
Definition truthy (v : option string) : bool :=
  match v with
  | Some EmptyString | None => false
  | Some _ => true
  end.

(** [interface QRISData] *)
Record QRISData := {
  merchantName : option string;
  nmid : option string;
  amount : option string;
  raw : option string
}.

(** Strategy 1, the body of [if (tags['51']) { ... }] once the sub-tags
    are decoded, starting from the current [data.nmid]. *)
Definition nmid_tag51 (subTags : gmap string string) (nmid0 : option string)
  : option string :=
  if truthy (subTags !! "02") then subTags !! "02"
  else if truthy (subTags !! "03") then subTags !! "03"
  else nmid0.

(** Strategy 2, the body of [if (!data.nmid && tags['62']) { ... }]. *)
Definition nmid_tag62 (subTags : gmap string string) (nmid0 : option string)
  : option string :=
  match subTags !! "07" with
  | Some v => if truthy (Some v) then
                if startsWith v "ID" then Some v else nmid0
              else nmid0
  | None => nmid0
  end.

(** The three nmid blocks of [parseQRIS], each from the current
    [data.nmid]. *)
Definition nmid_step1 (fuel : nat) (tags : gmap string string)
  : option (option string) :=
  match tags !! "51" with
  | Some v => if truthy (Some v)
              then subTags ← parseSubTags fuel v;
                   Some (nmid_tag51 subTags None)
              else Some None
  | None => Some None
  end.

Definition nmid_step2 (fuel : nat) (tags : gmap string string)
    (nmid1 : option string) : option (option string) :=
  match tags !! "62" with
  | Some v => if negb (truthy nmid1) && truthy (Some v)
              then subTags ← parseSubTags fuel v;
                   Some (nmid_tag62 subTags nmid1)
              else Some nmid1
  | None => Some nmid1
  end.

Definition nmid_step3 (qrisPayload : string) (nmid2 : option string)
  : option string :=
  if negb (truthy nmid2) then
    match match_nmid (list_ascii_of_string qrisPayload) with
    | Some m => Some m
    | None => nmid2
    end
  else nmid2.

(** Everything [parseQRIS] does after its TLV loop, on the decoded
    top-level [tags]; [fuel] bounds the two nested [parseSubTags] loops. *)
Definition extractFields (fuel : nat) (qrisPayload : string)
    (tags : gmap string string) : option QRISData :=
  let merchantName := if truthy (tags !! "59") then tags !! "59" else None in
  let amount :=
    match tags !! "54" with
    | Some v => if truthy (Some v)
                then Some ("Rp. " ++ toLocaleString_idID (parseInt v None))%string
                else None
    | None => None
    end in
  nmid1 ← nmid_step1 fuel tags;
  nmid2 ← nmid_step2 fuel tags nmid1;
  Some {| merchantName := merchantName; nmid := nmid_step3 qrisPayload nmid2;
          amount := amount; raw := Some qrisPayload |}.

(** [parseQRIS(qrisPayload)]: [None] only when a loop is still running
    after [fuel] iterations. *)
Definition parseQRIS (fuel : nat) (qrisPayload : string) : option QRISData :=
  tags ← tlv_loop fuel qrisPayload 0 ∅;
  extractFields fuel qrisPayload tags.

(* ------------------------------------------------------------------ *)
(** ** [scanQRCode] *)

(** The decode attempts of the cascade: which helper is called and with
    which arguments. *)
Inductive attempt :=
| ADirect
| AResized (maxSize : Z)
| ACenterCrop (xPercent yPercent widthPercent heightPercent : Z)
| APreprocessed
| ABinarized (threshold : Z)
| AResizedPreprocessed (maxSize : Z).

(** [interface ScanResult] *)
Record ScanResult := {
  success : bool;
  data : option string;
  strategy : string
}.

(** [{ ...result, strategy: s }] *)
Definition with_strategy (r : ScanResult) (s : string) : ScanResult :=
  {| success := success r; data := data r; strategy := s |}.

(** How a call completes: it returns a result, or it throws (the
    [DOMException]'s name). *)
Inductive completion :=
| Return (r : ScanResult)
| Throw (err : string).

(** *** The canvas a helper prepares *)

(** Setting [canvas.width] or [canvas.height] to a number whose integer
    part is [n]: WebIDL's [unsigned long] conversion takes [n] modulo 2^32,
    and the reflected attribute falls back to its default (300 for the
    width, 150 for the height) above 2^31 - 1. *)
Definition set_dimension (default n : Z) : Z :=
  let u := n mod 2 ^ 32 in
  if u <=? 2147483647 then u else default.

(** [newWidth], [newHeight] of [scanResized] and
    [scanResizedWithPreprocessing], as their integer parts. *)
Definition resized_size (width height maxSize : Z) : Z * Z :=
  if height <? width then
    if maxSize <? width
    then (maxSize, dbl_trunc (dbl_mul_int (round_ratio height width) maxSize))
    else (width, height)
  else
    if maxSize <? height
    then (dbl_trunc (dbl_mul_int (round_ratio width height) maxSize), maxSize)
    else (width, height).

(** [sWidth = (widthPercent / 100) * img.width] and
    [sHeight = (heightPercent / 100) * img.height] of [scanCenterCrop], as
    their integer parts. *)
Definition crop_size (width height widthPercent heightPercent : Z) : Z * Z :=
  (dbl_trunc (dbl_mul_int (round_ratio widthPercent 100) width),
   dbl_trunc (dbl_mul_int (round_ratio heightPercent 100) height)).

(** [canvas.width], [canvas.height] after the helper of attempt [a] has
    set them, for an image of [width] × [height] pixels. *)
Definition canvas_size (width height : Z) (a : attempt) : Z * Z :=
  let '(w, h) :=
    match a with
    | ADirect | APreprocessed | ABinarized _ => (width, height)
    | AResized maxSize | AResizedPreprocessed maxSize =>
        resized_size width height maxSize
    | ACenterCrop _ _ widthPercent heightPercent =>
        crop_size width height widthPercent heightPercent
    end in
  (set_dimension 300 w, set_dimension 150 h).

(** [ctx.getImageData(0, 0, canvas.width, canvas.height)] throws an
    [IndexSizeError] when either side is 0.  A browser's own limit on the
    canvas area is not modelled. *)
Definition canvas_empty (width height : Z) (a : attempt) : bool :=
  let '(w, h) := canvas_size width height a in (w =? 0) || (h =? 0).

Module Cascade.

(** The cascade runs in a state monad over the trace of the helper calls
    made so far, with an early exit for [return] and for an exception
    (nothing in [scanQRCode] catches). *)
Definition M (A : Type) : Type :=
  list attempt -> (completion + A) * list attempt.

#[global] Instance cascade_ret : MRet M := fun A a tr => (inr a, tr).

#[global] Instance cascade_bind : MBind M :=
  fun A B k m tr =>
    match m tr with
    | (inl c, tr') => (inl c, tr')
    | (inr a, tr') => k a tr'
    end.

(** [return r] from inside [scanQRCode]. *)
Definition early (r : ScanResult) : M unit := fun tr => (inl (Return r), tr).

(** [for (const x of xs) body(x)] *)
Fixpoint for_ {A} (xs : list A) (body : A -> M unit) : M unit :=
  match xs with
  | [] => mret tt
  | x :: xs' => body x ;; for_ xs' body
  end.

Definition run (m : M ScanResult) : completion * list attempt :=
  match m [] with
  | (inl c, tr) => (c, tr)
  | (inr r, tr) => (Return r, tr)
  end.

End Cascade.

Import Cascade.

Section Scanner.

(** [img.width] and [img.height]. *)
Variables imgWidth imgHeight : Z.

(** [has_context a]: the helper of attempt [a] gets a 2D context from
    [canvas.getContext('2d')] (it returns a failure result otherwise). *)
Variable has_context : attempt -> bool.

(** [jsQR_on a] is what [jsQR(...)] returns on the canvas that the helper
    of attempt [a] prepares from the image: [Some code.data] when a code is
    found, [None] for [null]. *)
Variable jsQR_on : attempt -> option string.

(** The body shared by every helper, recorded in the trace: the early
    return without a context, [getImageData] on the canvas (which throws
    on an empty one), the [jsQR] call, and the helper's own fixed
    [strategy] label. *)
Definition decode (a : attempt) (label : string) : M ScanResult :=
  fun tr =>
    let tr' := tr ++ [a] in
    if negb (has_context a)
    then (inr {| success := false; data := None; strategy := label |}, tr')
    else if canvas_empty imgWidth imgHeight a
    then (inl (Throw "IndexSizeError"), tr')
    else
      (inr (match jsQR_on a with
            | Some d => {| success := true; data := Some d; strategy := label |}
            | None => {| success := false; data := None; strategy := label |}
            end), tr').

Definition scanDirect : M ScanResult := decode ADirect "direct".
Definition scanResized (maxSize : Z) : M ScanResult :=
  decode (AResized maxSize) "resized".
Definition scanCenterCrop (x y w h : Z) : M ScanResult :=
  decode (ACenterCrop x y w h) "center-crop".
Definition scanWithPreprocessing : M ScanResult :=
  decode APreprocessed "preprocessed".
Definition scanBinarized (threshold : Z) : M ScanResult :=
  decode (ABinarized threshold) "binarized".
Definition scanResizedWithPreprocessing (maxSize : Z) : M ScanResult :=
  decode (AResizedPreprocessed maxSize) "resized-preprocessed".

Definition resizeSizes : list Z := [500; 600; 400; 800; 300; 1000; 1200].

(** [cropPercentages] as (x, y, w, h). *)
Definition cropPercentages : list (Z * Z * Z * Z) :=
  [(10, 20, 80, 60); (15, 25, 70, 50); (5, 15, 90, 70); (20, 30, 60, 40);
   (0, 10, 100, 80)].

Definition thresholds : list Z := [128; 100; 80; 150; 180; 60; 200].

Definition preprocessSizes : list Z := [500; 600; 400].

(** [scanQRCode(img)] *)
Definition scanQRCode : M ScanResult :=
  result ← scanDirect;
  (if success result then early (with_strategy result "direct") else mret tt);;
  for_ resizeSizes (fun size =>
    result ← scanResized size;
    if success result
    then early (with_strategy result ("resized-" ++ show size)%string)
    else mret tt);;
  for_ cropPercentages (fun '(x, y, w, h) =>
    result ← scanCenterCrop x y w h;
    if success result then early (with_strategy result "center-crop")
    else mret tt);;
  result ← scanWithPreprocessing;
  (if success result then early (with_strategy result "preprocessed")
   else mret tt);;
  for_ thresholds (fun threshold =>
    result ← scanBinarized threshold;
    if success result
    then early (with_strategy result ("binarized-" ++ show threshold)%string)
    else mret tt);;
  for_ preprocessSizes (fun size =>
    result ← scanResizedWithPreprocessing size;
    if success result
    then early (with_strategy result
                  ("resized-preprocessed-" ++ show size)%string)
    else mret tt);;
  mret {| success := false; data := None; strategy := "none" |}.
(** How [scanQRCode] completes, together with the helper calls it made,
    in order. *)
Definition scan : completion * list attempt := run scanQRCode.

End Scanner.

(* ------------------------------------------------------------------ *)
(** ** Reference definitions for the properties *)

(** The cascade as section 4.4 of the specification lists it. *)
Definition spec_cascade : list attempt :=
  [ADirect;
   AResized 500; AResized 600; AResized 400; AResized 800; AResized 300;
   AResized 1000; AResized 1200;
   ACenterCrop 10 20 80 60; ACenterCrop 15 25 70 50; ACenterCrop 5 15 90 70;
   ACenterCrop 20 30 60 40; ACenterCrop 0 10 100 80;
   APreprocessed;
   ABinarized 128; ABinarized 100; ABinarized 80; ABinarized 150;
   ABinarized 180; ABinarized 60; ABinarized 200;
   AResizedPreprocessed 500; AResizedPreprocessed 600;
   AResizedPreprocessed 400].

(** Why a walk over the attempts stops: a decoded payload, an attempt
    that throws, or the end of the list. *)
Inductive stop :=
| Hit (d : string)
| Thrown
| Exhausted.

(** The attempts of [l] up to and including the first one that throws or
    that the decoder succeeds on, and why the walk stops. *)
Fixpoint cascade_stop (throws : attempt -> bool) (dec : attempt -> option string)
    (l : list attempt) : list attempt * stop :=
  match l with
  | [] => ([], Exhausted)
  | a :: l' =>
      if throws a then ([a], Thrown)
      else match dec a with
           | Some d => ([a], Hit d)
           | None => let '(t, s) := cascade_stop throws dec l' in (a :: t, s)
           end
  end.

(** The helper of attempt [a] throws: it has a context and its canvas is
    empty. *)
Definition throws_at (width height : Z) (has_context : attempt -> bool)
    (a : attempt) : bool :=
  has_context a && canvas_empty width height a.

(** What the helper of attempt [a] decodes when it returns. *)
Definition decodes_at (has_context : attempt -> bool)
    (jsQR_on : attempt -> option string) (a : attempt) : option string :=
  if has_context a then jsQR_on a else None.

Definition attempt_eq_dec (a b : attempt) : {a = b} + {a <> b}.
Proof. decide equality; apply Z.eq_dec. Defined.

(** A decoder double that finds the code only on attempt [a0]. *)
Definition only_at (a0 : attempt) (d : string) (a : attempt) : option string :=
  if attempt_eq_dec a a0 then Some d else None.

(** The three ways a helper call can go. *)
Inductive outcome :=
| OThrow
| OHit (d : string)
| OMiss.

Definition outcome_at (width height : Z) (has_context : attempt -> bool)
    (jsQR_on : attempt -> option string) (a : attempt) : outcome :=
  if throws_at width height has_context a then OThrow
  else match decodes_at has_context jsQR_on a with
       | Some d => OHit d
       | None => OMiss
       end.

Fixpoint walk (o : attempt -> outcome) (l : list attempt) : list attempt * stop :=
  match l with
  | [] => ([], Exhausted)
  | a :: l' =>
      match o a with
      | OThrow => ([a], Thrown)
      | OHit d => ([a], Hit d)
      | OMiss => let '(t, s) := walk o l' in (a :: t, s)
      end
  end.

(** TLV encoding of a sequence of (tag, value) pairs, TAG + LEN + VALUE
    with LEN the value's length as two decimal digits. *)
Definition two_digits (n : nat) : string :=
  String (ascii_of_nat (48 + n / 10)) (String (ascii_of_nat (48 + n mod 10)) EmptyString).

Definition encode_entry (e : string * string) : string :=
  (fst e ++ two_digits (String.length (snd e)) ++ snd e)%string.

Definition encode (l : list (string * string)) : string :=
  List.fold_right (fun e acc => (encode_entry e ++ acc)%string) EmptyString l.

(** A well-formed pair: a 2-character tag and a value shorter than 100. *)
Definition wf_entry (e : string * string) : Prop :=
  String.length (fst e) = 2%nat /\ (String.length (snd e) < 100)%nat.

(** The tag-to-value mapping a sequence induces, later pairs overwriting
    earlier ones. *)
Definition insert_entry (m : gmap string string) (e : string * string)
  : gmap string string := <[fst e := snd e]> m.

Definition induced (l : list (string * string)) : gmap string string :=
  List.fold_left insert_entry l ∅.

(** A tag "present" in the sense the code gives it: present with a
    non-empty value. *)
Definition present (v : option string) : option string :=
  match v with
  | Some EmptyString => None
  | _ => v
  end.

(** The nmid resolution chain of section 4.2 step 4, first match wins,
    each step tried only while nmid is still unresolved. *)
Definition spec_step_a (fuel : nat) (tags : gmap string string)
  : option (option string) :=
  match present (tags !! "51") with
  | Some v => sub ← parseSubTags fuel v;
              Some (match present (sub !! "02") with
                    | Some x => Some x
                    | None => present (sub !! "03")
                    end)
  | None => Some None
  end.

Definition spec_step_b (fuel : nat) (tags : gmap string string)
  : option (option string) :=
  match present (tags !! "62") with
  | Some v => sub ← parseSubTags fuel v;
              Some (match sub !! "07" with
                    | Some x => if startsWith x "ID" then Some x else None
                    | None => None
                    end)
  | None => Some None
  end.

Definition nmid_chain_spec (fuel : nat) (payload : string)
    (tags : gmap string string) : option (option string) :=
  a ← spec_step_a fuel tags;
  match a with
  | Some x => Some (Some x)
  | None =>
      b ← spec_step_b fuel tags;
      match b with
      | Some x => Some (Some x)
      | None => Some (match_nmid (list_ascii_of_string payload))
      end
  end.

(** Reading a string as a base-10 integer: leading whitespace, an optional
    sign, then the longest run of decimal digits, which must not be
    empty. *)
Definition sign_split (l : list ascii) : bool * list ascii :=
  match l with
  | c :: r =>
      if Ascii.eqb c "-"%char then (true, r)
      else if Ascii.eqb c "+"%char then (false, r)
      else (false, l)
  | [] => (false, l)
  end.

Fixpoint leading_decimal (l : list ascii) : list ascii :=
  match l with
  | c :: r => if is_digit c then c :: leading_decimal r else []
  | [] => []
  end.

Definition decimal_value (ds : list ascii) : Z :=
  List.fold_left (fun acc c => acc * 10 + digit_value c) ds 0.

Definition base10_reading (v : string) : option (bool * Z) :=
  let '(neg, rest) := sign_split (trim_start (list_ascii_of_string v)) in
  match leading_decimal rest with
  | [] => None
  | ds => Some (neg, decimal_value ds)
  end.

(** The value, after whitespace and sign, starts with "0x" or "0X". *)
Definition hex_prefixed (v : string) : bool :=
  let '(_, rest) := sign_split (trim_start (list_ascii_of_string v)) in
  match rest with
  | c0 :: c1 :: _ => Ascii.eqb c0 "0"%char && is_x c1
  | _ => false
  end.

(* ------------------------------------------------------------------ *)
(** ** OCR text clean-up (src/unnamed/part_000) *)

Module OCR.

(** The regular-expression class [\w]: [A-Za-z0-9_]. *)
Definition is_word (c : ascii) : bool :=
  let n := nat_of_ascii c in
  ((48 <=? n)%nat && (n <=? 57)%nat) || ((65 <=? n)%nat && (n <=? 90)%nat)
  || ((97 <=? n)%nat && (n <=? 122)%nat) || (n =? 95)%nat.

(** [text.replace(/[^\w\s\-]/g, '')]: every character outside [\w], [\s]
    and "-" is removed; within Latin-1, [\s] is the white space of
    [is_ws]. *)
Definition keep_char (c : ascii) : bool :=
  is_word c || is_ws c || Ascii.eqb c "-"%char.

Definition strip_artifacts (l : list ascii) : list ascii := List.filter keep_char l.

(** [String.prototype.trim()]: white space removed at both ends. *)
Definition trim (l : list ascii) : list ascii :=
  List.rev (trim_start (List.rev (trim_start l))).

(** [String.prototype.toUpperCase()] on the characters that reach it in
    [cleanSubtitle] and [cleanFooterCode], i.e. those [keep_char] accepts
    (ASCII word characters, "-" and white space): a-z become A-Z, the others
    have no upper-case mapping and are kept. *)
Definition to_upper (c : ascii) : ascii :=
  let n := nat_of_ascii c in
  if (97 <=? n)%nat && (n <=? 122)%nat then ascii_of_nat (n - 32) else c.

(** [cleanSubtitle(text)] *)
Definition cleanSubtitle (text : string) : string :=
  string_of_list_ascii
    (List.map to_upper (trim (strip_artifacts (list_ascii_of_string text)))).

(** [cleanFooterCode(text)] *)
Definition cleanFooterCode (text : string) : string :=
  string_of_list_ascii
    (List.map to_upper (trim (strip_artifacts (list_ascii_of_string text)))).

(** [.replace(/\n/g, ' ')] *)
Definition replace_newlines (l : list ascii) : list ascii :=
  List.map (fun c => if Ascii.eqb c "010"%char then " "%char else c) l.

(** [.replace(/\s+/g, ' ')]: each maximal run of white space becomes one
    space; [in_run] tells whether the previous character was white space. *)
Fixpoint collapse_ws (in_run : bool) (l : list ascii) : list ascii :=
  match l with
  | [] => []
  | c :: r =>
      if is_ws c
      then if in_run then collapse_ws true r else " "%char :: collapse_ws true r
      else c :: collapse_ws false r
  end.

(** [result.data.text.trim().replace(/\n/g, ' ').replace(/\s+/g, ' ')] *)
Definition normalize_text (text : string) : string :=
  string_of_list_ascii
    (collapse_ws false (replace_newlines (trim (list_ascii_of_string text)))).

Section Extract.

(** The regions of the image, as [interface OCRRegion]; they are only
    handed on to the cropping and recognition. *)
Variable OCRRegion : Type.

(** [recognize r] is the text Tesseract reads in the crop of region [r] of
    the image, or [None] when [cropImageRegion] or [Tesseract.recognize]
    throws. *)
Variable recognize : OCRRegion -> option string.

(** [interface OCRSettings] *)
Record OCRSettings := {
  subtitleRegion : OCRRegion;
  footerCodeRegion : OCRRegion;
  enableAutoDetect : bool
}.

(** [extractTextFromRegion(img, region)]: the [catch] returns [''].*)
Definition extractTextFromRegion (region : OCRRegion) : string :=
  match recognize region with
  | Some text => normalize_text text
  | None => ""
  end.

(** The object [extractQRISFields] resolves to. *)
Record OCRFields := {
  subtitle : string;
  footerCode : string
}.

(** [extractQRISFields(img, settings)]; [Promise.all] never rejects, as
    [extractTextFromRegion] catches. *)
Definition extractQRISFields (settings : OCRSettings) : OCRFields :=
  if negb (enableAutoDetect settings) then {| subtitle := ""; footerCode := "" |}
  else
    let subtitle := extractTextFromRegion (subtitleRegion settings) in
    let footerCode := extractTextFromRegion (footerCodeRegion settings) in
    {| subtitle := cleanSubtitle subtitle; footerCode := cleanFooterCode footerCode |}.

End Extract.

End OCR.

(* ------------------------------------------------------------------ *)
(** ** The callers in src/src/App.tsx *)

Module App.

(** [interface QRData] *)
Record QRData := {
  id : string;
  title : string;
  subtitle : string;
  nmid : string;
  qrContent : string;
  footerCode : string;
  nominal : string
}.

Inductive Status := Success | Failed.

(** [interface BulkEntry extends QRData] *)
Record BulkEntry := {
  qrdata : QRData;
  fileName : string;
  status : Status;
  errorMessage : option string
}.

(** How far [processImage] gets with a file: the [FileReader] fails
    ([reader.onerror]), the image does not load ([img.onerror]), the canvas
    has no 2D context, or [jsQR] on the full image returns [code]
    ([Some code.data], or [None] for [null]). *)
Inductive load_outcome :=
| ReaderError
| ImageError
| NoContext
| Decoded (code : option string).

(** [x || d] on an optional string field. *)
Definition or_default (v : option string) (d : string) : string :=
  match v with
  | Some s => if truthy (Some s) then s else d
  | None => d
  end.

(** The entry [processImage] resolves with when a file cannot be used. *)
Definition failed_entry (id fileName errorMessage : string) : BulkEntry :=
  {| qrdata := {| id := id; title := ""; subtitle := ""; nmid := "";
                  qrContent := ""; footerCode := ""; nominal := "" |};
     fileName := fileName; status := Failed; errorMessage := Some errorMessage |}.

Section Process.

Variable OCRRegion : Type.
Variable recognize : OCRRegion -> option string.

(** The component state [processImage] reads. *)
Variables (defaultSubtitle defaultFooterCode : string) (enableAutoDetect : bool)
  (subtitleRegion footerCodeRegion : OCRRegion).

(** [getOCRSettings()] *)
Definition getOCRSettings : OCR.OCRSettings OCRRegion :=
  {| OCR.enableAutoDetect := enableAutoDetect;
     OCR.subtitleRegion := subtitleRegion;
     OCR.footerCodeRegion := footerCodeRegion |}.

(** [processImage(file)]: [id] is [Date.now().toString() + Math.random()];
    [None] only when [parseQRIS] is still running after [fuel] iterations. *)
Definition processImage (fuel : nat) (id fileName : string) (outcome : load_outcome)
  : option BulkEntry :=
  match outcome with
  | ReaderError => Some (failed_entry id fileName "Gagal membaca file")
  | ImageError => Some (failed_entry id fileName "Gagal memuat gambar")
  | NoContext => Some (failed_entry id fileName "Canvas context not available")
  | Decoded None => Some (failed_entry id fileName "QR Code tidak terdeteksi")
  | Decoded (Some code) =>
      parsed ← parseQRIS fuel code;
      match parsed with
      | Build_QRISData merchantName nmid amount _ =>
          let detectedNominal := or_default amount "Rp. " in
          let '(detectedSubtitle, detectedFooterCode) :=
            if enableAutoDetect then
              let ocrResult := OCR.extractQRISFields OCRRegion recognize getOCRSettings in
              (if truthy (Some (OCR.subtitle ocrResult))
               then OCR.subtitle ocrResult else defaultSubtitle,
               if truthy (Some (OCR.footerCode ocrResult))
               then OCR.footerCode ocrResult else defaultFooterCode)
            else (defaultSubtitle, defaultFooterCode) in
          Some {| qrdata := {| id := id;
                               title := or_default merchantName "RETRIBUSI PARKIR";
                               subtitle := detectedSubtitle;
                               nmid := or_default nmid "";
                               qrContent := code;
                               footerCode := detectedFooterCode;
                               nominal := detectedNominal |};
                  fileName := fileName; status := Success; errorMessage := None |}
      end
  end.

(** The final [bulkEntries] of [handleBulkUpload(e)], from the files as
    (id, name, outcome) in order: [results] collects every entry
    [processImage] resolves with (it never resolves with [null]); with no
    file the handler returns at once and the entries are unchanged. *)
Fixpoint process_all (fuel : nat) (files : list (string * string * load_outcome))
  : option (list BulkEntry) :=
  match files with
  | [] => Some []
  | (id, name, outcome) :: rest =>
      result ← processImage fuel id name outcome;
      results ← process_all fuel rest;
      Some (result :: results)
  end.

Definition handleBulkUpload (fuel : nat) (files : list (string * string * load_outcome))
    (bulkEntries : list BulkEntry) : option (list BulkEntry) :=
  match files with
  | [] => Some bulkEntries
  | _ => process_all fuel files
  end.

End Process.

Definition is_success (entry : BulkEntry) : bool :=
  match status entry with Success => true | Failed => false end.

(** The new [data] of [handleSaveAllBulk()]: the success entries, without
    [fileName], [status] and [errorMessage], appended in order. *)
Definition handleSaveAllBulk (data : list QRData) (bulkEntries : list BulkEntry)
  : list QRData :=
  data ++ List.map qrdata (List.filter is_success bulkEntries).

End App.

(* ------------------------------------------------------------------ *)
(** ** Reference definitions for the further properties *)

(** The strategy labels [scanQRCode] can return on success. *)
Definition success_labels : list string :=
  ["direct"%string] ++
  List.map (fun size => "resized-" ++ show size)%string resizeSizes ++
  ["center-crop"; "preprocessed"]%string ++
  List.map (fun t => "binarized-" ++ show t)%string thresholds ++
  List.map (fun size => "resized-preprocessed-" ++ show size)%string preprocessSizes.

(** The characters [cleanSubtitle] and [cleanFooterCode] can return:
    A-Z, 0-9, "_", "-" and white space. *)
Definition clean_char (c : ascii) : bool :=
  let n := nat_of_ascii c in
  ((48 <=? n)%nat && (n <=? 57)%nat) || ((65 <=? n)%nat && (n <=? 90)%nat)
  || (n =? 95)%nat || (n =? 45)%nat || is_ws c.

(** No white space at either end. *)
Definition trimmed (o : list ascii) : Prop :=
  (forall c r, o = c :: r -> is_ws c = false) /\
  (forall c r, o = r ++ [c] -> is_ws c = false).

(** The payloads of the decoded files, in order. *)
Definition decoded_codes (files : list (string * string * App.load_outcome)) : list string :=
  List.flat_map (fun '(_, _, outcome) =>
                   match outcome with
                   | App.Decoded (Some code) => [code]
                   | _ => []
                   end) files.

(** The character map of [.replace(/\n/g, ' ')]. *)
Definition newline_to_space (c : ascii) : ascii :=
  if Ascii.eqb c "010"%char then " "%char else c.

(** Whether [processImage] reaches [jsQR] and it finds a code. *)
Definition decoded (o : App.load_outcome) : bool :=
  match o with App.Decoded (Some _) => true | _ => false end.

(** Sample inputs: a QRIS payload with tags 00, 01, 51 (sub-tag 02), 58,
    59, 54 and 63; one with tag 62 (sub-tag 07) and no tag 51; an OCR
    engine that reads a line on region 0 and fails elsewhere; and the entry
    [processImage] builds from the first payload. *)
Definition sample_qris : string :=
  ("000201" ++ "010211" ++ "51160212ID1234567890" ++ "5802ID" ++ "5911TOKO MAKMUR" ++
   "5406150000" ++ "6304ABCD")%string.
Definition sample_qris62 : string :=
  ("000201" ++ "62110707ID98765" ++ "5904TOKO")%string.
Definition sample_recognize (r : nat) : option string :=
  match r with O => Some (" Parkir Pasar-Baru!" ++ String "010" "")%string | _ => None end.
Definition sample_entry : App.BulkEntry :=
  {| App.qrdata := {| App.id := "1"; App.title := "TOKO MAKMUR";
                      App.subtitle := "PARKIR PASAR-BARU"; App.nmid := "ID1234567890";
                      App.qrContent := sample_qris; App.footerCode := "F-01";
                      App.nominal := "Rp. 150.000" |};
     App.fileName := "a.png"; App.status := App.Success; App.errorMessage := None |}.


Example parseInt_ex1 : parseInt "5A" (Some 10) = Num false 5.
Proof. reflexivity. Qed.
Example parseInt_ex2 : parseInt "0x1F" None = Num false 31.
Proof. reflexivity. Qed.
Example fmt_ex : toLocaleString_idID (parseInt "150000" None) = "150.000"%string.
Proof. reflexivity. Qed.
Example fmt_ex2 : toLocaleString_idID (parseInt "1000" None) = "1.000"%string.
Proof. reflexivity. Qed.
Example loop_ex : parseSubTags 10 "0002015910MERCHANT A" =
  Some (<["59" := "MERCHANT A"]> (<["00" := "01"]> ∅)).
Proof. reflexivity. Qed.
Example parse_ex1 :
  parseQRIS 20 "0002015910MERCHANT A5406150000" =
  Some {| merchantName := Some "MERCHANT A"%string; nmid := None;
          amount := Some "Rp. 150.000"%string;
          raw := Some "0002015910MERCHANT A5406150000"%string |}.
Proof. reflexivity. Qed.
Example parse_ex2 :
  option_map nmid (parseQRIS 20 "00020151160212ID12345678905912ID5555555555"%string) = Some (Some "ID1234567890"%string).
Proof. reflexivity. Qed.

Example scan_ex :
  scan 400 400 (fun _ => true) (only_at (ABinarized 150) "P")
  = (Return {| success := true; data := Some "P"; strategy := "binarized-150" |},
     firstn 18 spec_cascade).
Proof. vm_compute. reflexivity. Qed.

Example canvas_ex :
  canvas_size 100 1 (ACenterCrop 10 20 80 60) = (80, 0) /\
  canvas_size 100 1 (AResized 500) = (100, 1) /\
  canvas_size 1000 300 (AResized 500) = (500, 150) /\
  canvas_size 300 1000 (AResized 400) = (120, 400) /\
  canvas_size 3 7 (AResized 2) = (0, 2) /\
  canvas_size 1000 1000 (ACenterCrop 10 20 70 50) = (700, 500).
Proof. vm_compute. repeat split. Qed.

Example fmt_ex3 :
  toLocaleString_idID (parseInt "12345678901234567891" None)
  = "12.345.678.901.234.567.000"%string.
Proof. vm_compute. reflexivity. Qed.

(* ------------------------------------------------------------------ *)
(** ** The scanning cascade *)

(** The walk over the attempts when none throws and none decodes. *)
Lemma cascade_stop_none (throws : attempt -> bool) (dec : attempt -> option string)
    (l : list attempt) :
  (forall a, In a l -> throws a = false /\ dec a = None) ->
  cascade_stop throws dec l = (l, Exhausted).
Proof.
  induction l as [|a l IH]; intros H; [reflexivity|]. simpl.
  destruct (H a (or_introl eq_refl)) as [-> ->].
  rewrite IH; [reflexivity|]. intros b Hb. apply H. right. exact Hb.
Qed.

Lemma cascade_stop_walk (width height : Z) (has_context : attempt -> bool)
    (jsQR_on : attempt -> option string) (l : list attempt) :
  cascade_stop (throws_at width height has_context) (decodes_at has_context jsQR_on) l
  = walk (outcome_at width height has_context jsQR_on) l.
Proof.
  induction l as [|a l IH]; [reflexivity|]. simpl. rewrite IH. unfold outcome_at.
  destruct (throws_at _ _ _ a); [reflexivity|].
  destruct (decodes_at _ _ a); reflexivity.
Qed.

Lemma decode_outcome (width height : Z) (has_context : attempt -> bool)
    (jsQR_on : attempt -> option string) (a : attempt) (label : string)
    (tr : list attempt) :
  decode width height has_context jsQR_on a label tr
  = match outcome_at width height has_context jsQR_on a with
    | OThrow => (inl (Throw "IndexSizeError"), tr ++ [a])
    | OHit d => (inr {| success := true; data := Some d; strategy := label |}, tr ++ [a])
    | OMiss => (inr {| success := false; data := None; strategy := label |}, tr ++ [a])
    end.
Proof.
  unfold decode, outcome_at, throws_at, decodes_at.
  destruct (has_context a); [|reflexivity]. simpl.
  destruct (canvas_empty width height a); [reflexivity|].
  destruct (jsQR_on a); reflexivity.
Qed.

(** Unfold the cascade one helper call at a time, splitting on how each
    call goes. *)
Ltac walk_cascade :=
  repeat match goal with
         | |- context [decode ?w ?h ?c ?j ?a ?l ?tr] =>
             rewrite (decode_outcome w h c j a l tr);
             destruct (outcome_at w h c j a);
             cbv -[decode outcome_at]
         end.

Lemma scan_cascade_stop (width height : Z) (has_context : attempt -> bool)
    (jsQR_on : attempt -> option string) :
  let s := cascade_stop (throws_at width height has_context)
             (decodes_at has_context jsQR_on) spec_cascade in
  snd (scan width height has_context jsQR_on) = fst s /\
  match snd s with
  | Hit d => exists label, fst (scan width height has_context jsQR_on)
                           = Return {| success := true; data := Some d; strategy := label |}
  | Thrown => fst (scan width height has_context jsQR_on) = Throw "IndexSizeError"
  | Exhausted => fst (scan width height has_context jsQR_on)
                 = Return {| success := false; data := None; strategy := "none" |}
  end.
Proof.
  cbv zeta. rewrite cascade_stop_walk. unfold scan, run, scanQRCode.
  cbv -[decode outcome_at].
  walk_cascade; (split; [reflexivity|]); try reflexivity; eexists; reflexivity.
Qed.

(** C2 (amended): [scanQRCode] calls its helpers in exactly the order of
    the specification's cascade and stops at the first call that decodes a
    code or throws; [cascade_stop] over [spec_cascade] gives the calls it
    makes.  On a hit it returns success with that payload.  A helper
    throws when its canvas has a side of 0 px, because [getImageData] then
    raises IndexSizeError, and nothing catches the exception.  When every
    call misses, the result is [{success: false, data: null, strategy:
    'none'}]. *)
Theorem scanQRCode_first_success_in_order (width height : Z)
    (has_context : attempt -> bool) (jsQR_on : attempt -> option string) :
  let s := cascade_stop (throws_at width height has_context)
             (decodes_at has_context jsQR_on) spec_cascade in
  snd (scan width height has_context jsQR_on) = fst s /\
  match snd s with
  | Hit d => exists label, fst (scan width height has_context jsQR_on)
                           = Return {| success := true; data := Some d; strategy := label |}
  | Thrown => fst (scan width height has_context jsQR_on) = Throw "IndexSizeError"
  | Exhausted => fst (scan width height has_context jsQR_on)
                 = Return {| success := false; data := None; strategy := "none" |}
  end.
Proof. exact (scan_cascade_stop width height has_context jsQR_on). Qed.

(** C2 counterexample: on a 100 × 1 image where only binarized-150
    decodes, the first center crop gets a canvas 0.6 px tall, truncated to
    0: [scanQRCode] throws there, after 9 helper calls, and never reaches
    binarized-150. *)
Lemma scanQRCode_order_counterexample :
  canvas_size 100 1 (ACenterCrop 10 20 80 60) = (80, 0) /\
  scan 100 1 (fun _ => true) (only_at (ABinarized 150) "P")
  = (Throw "IndexSizeError", firstn 9 spec_cascade).
Proof. vm_compute. split; reflexivity. Qed.

(** C7 (amended): when the decoder fails on every attempt of the cascade
    and no helper's canvas is empty, [scanQRCode] returns [{ success:
    false, data: null, strategy: 'none' }] after making all of the
    attempts. *)
Theorem scanQRCode_exhaustion (width height : Z) (has_context : attempt -> bool)
    (jsQR_on : attempt -> option string)
    (Hnone : forall a, In a spec_cascade -> jsQR_on a = None)
    (Hcanvas : forall a, In a spec_cascade -> canvas_empty width height a = false) :
  scan width height has_context jsQR_on
  = (Return {| success := false; data := None; strategy := "none" |}, spec_cascade).
Proof.
  destruct (scan_cascade_stop width height has_context jsQR_on) as [Ht Hr].
  rewrite cascade_stop_none in Ht, Hr.
  - destruct (scan width height has_context jsQR_on) as [c tr]. simpl in *.
    rewrite Ht, Hr. reflexivity.
  - intros a Ha. unfold throws_at, decodes_at. rewrite Hcanvas, Hnone by exact Ha.
    destruct (has_context a); split; reflexivity.
  - intros a Ha. unfold throws_at, decodes_at. rewrite Hcanvas, Hnone by exact Ha.
    destruct (has_context a); split; reflexivity.
Qed.

Lemma scanQRCode_exhaustion_witness :
  (forall a, In a spec_cascade -> (fun _ : attempt => @None string) a = None) /\
  (forall a, In a spec_cascade -> canvas_empty 400 400 a = false) /\
  scan 400 400 (fun _ => true) (fun _ => None)
  = (Return {| success := false; data := None; strategy := "none" |}, spec_cascade).
Proof.
  assert (Hn : forall a, In a spec_cascade -> (fun _ : attempt => @None string) a = None)
    by (intros; reflexivity).
  assert (Hc : forall a, In a spec_cascade -> canvas_empty 400 400 a = false).
  { intros a Ha.
    repeat (destruct Ha as [<- | Ha]; [vm_compute; reflexivity |]). destruct Ha. }
  refine (conj Hn (conj Hc _)).
  exact (scanQRCode_exhaustion 400 400 (fun _ => true) (fun _ => None) Hn Hc).
Defined.

(** C7 counterexample: on a blank 100 × 1 image [scanQRCode] throws
    IndexSizeError at the first center crop instead of returning the
    'none' result. *)
Lemma scanQRCode_exhaustion_counterexample :
  scan 100 1 (fun _ => true) (fun _ => None)
  = (Throw "IndexSizeError", firstn 9 spec_cascade).
Proof. vm_compute. reflexivity. Qed.

(** C8: the strategy label does not say which crop window succeeded: a
    400 × 400 image decodable only in the first window and one decodable
    only in the second give the same Scan Result, labelled "center-crop",
    while the winning attempts differ. *)
Theorem scanQRCode_center_crop_label_loses_window :
  fst (scan 400 400 (fun _ => true) (only_at (ACenterCrop 10 20 80 60) "P"))
    = Return {| success := true; data := Some "P"; strategy := "center-crop" |} /\
  fst (scan 400 400 (fun _ => true) (only_at (ACenterCrop 15 25 70 50) "P"))
    = Return {| success := true; data := Some "P"; strategy := "center-crop" |} /\
  last (snd (scan 400 400 (fun _ => true) (only_at (ACenterCrop 10 20 80 60) "P")))
    = Some (ACenterCrop 10 20 80 60) /\
  last (snd (scan 400 400 (fun _ => true) (only_at (ACenterCrop 15 25 70 50) "P")))
    = Some (ACenterCrop 15 25 70 50).
Proof. vm_compute. repeat split. Qed.

(* ------------------------------------------------------------------ *)
(** ** Strings and [substr] *)

Lemma list_ascii_of_string_app (a b : string) :
  list_ascii_of_string (a ++ b) = list_ascii_of_string a ++ list_ascii_of_string b.
Proof. induction a as [|c a IH]; simpl; [reflexivity | now rewrite IH]. Qed.

Lemma length_list_ascii_of_string (s : string) :
  List.length (list_ascii_of_string s) = String.length s.
Proof. induction s as [|c s IH]; simpl; congruence. Qed.

(** [substr] at an offset inside the string returns exactly the middle
    segment. *)
Lemma substr_mid (s : string) (a b c : list ascii) :
  list_ascii_of_string s = a ++ b ++ c ->
  substr s (Z.of_nat (List.length a)) (Z.of_nat (List.length b))
  = string_of_list_ascii b.
Proof.
  intros H. unfold substr. rewrite H, !length_app.
  destruct (Z.ltb_spec (Z.of_nat (List.length a)) 0); [lia|].
  replace (Z.min (Z.of_nat (List.length a)) _) with (Z.of_nat (List.length a))
    by lia.
  replace (Z.min (Z.max (Z.of_nat (List.length b)) 0) _)
    with (Z.of_nat (List.length b)) by lia.
  replace (Z.min (Z.of_nat (List.length a) + Z.of_nat (List.length b)) _)
    with (Z.of_nat (List.length a) + Z.of_nat (List.length b)) by lia.
  replace (Z.to_nat (Z.of_nat (List.length a) + Z.of_nat (List.length b)
                     - Z.of_nat (List.length a)))
    with (List.length b) by lia.
  rewrite Nat2Z.id, drop_app_length, take_app_length. reflexivity.
Qed.

Lemma length_two_digits (n : nat) : String.length (two_digits n) = 2%nat.
Proof. reflexivity. Qed.

(** A two-digit length field reads back as its value. *)
Lemma parseInt_two_digits (n : nat) :
  (n < 100)%nat -> parseInt (two_digits n) (Some 10) = Num false (Z.of_nat n).
Proof.
  intros Hn.
  do 100 (destruct n as [|n]; [reflexivity|]). lia.
Qed.

Lemma encode_cons (e : string * string) (l : list (string * string)) :
  encode (e :: l) = (encode_entry e ++ encode l)%string.
Proof. reflexivity. Qed.

Lemma tlv_loop_encode (l : list (string * string)) :
  Forall wf_entry l ->
  forall (fuel : nat) (s : string) (P : list ascii) (m : gmap string string),
  list_ascii_of_string s = P ++ list_ascii_of_string (encode l) ->
  (List.length l < fuel)%nat ->
  tlv_loop fuel s (Z.of_nat (List.length P)) m = Some (List.fold_left insert_entry l m).
Proof.
  induction 1 as [|[t v] l [Ht Hv] Hwf IH];
    intros fuel s P m Hs Hfuel; (destruct fuel as [|fuel]; [lia|]); simpl.
  - rewrite app_nil_r in Hs.
    rewrite <- length_list_ascii_of_string, Hs, Z.ltb_irrefl. reflexivity.
  - simpl in Ht, Hv.
    set (d := two_digits (String.length v)) in *.
    assert (Hd : List.length (list_ascii_of_string d) = 2%nat)
      by (rewrite length_list_ascii_of_string; apply length_two_digits).
    assert (Ht' : List.length (list_ascii_of_string t) = 2%nat)
      by (rewrite length_list_ascii_of_string; exact Ht).
    rewrite <- (length_list_ascii_of_string v) in Hv.
    rewrite encode_cons in Hs. unfold encode_entry in Hs. cbn [fst snd] in Hs.
    rewrite !list_ascii_of_string_app in Hs.
    fold d in Hs.
    set (T := list_ascii_of_string t) in *.
    set (D := list_ascii_of_string d) in *.
    set (V := list_ascii_of_string v) in *.
    set (R := list_ascii_of_string (encode l)) in *.
    rewrite <- !app_assoc in Hs.
    assert (Hlen : (Z.of_nat (List.length P) <? Z.of_nat (String.length s)) = true).
    { apply Z.ltb_lt. rewrite <- length_list_ascii_of_string, Hs, !length_app. lia. }
    rewrite Hlen. unfold tlv_step.
    assert (Hid : substr s (Z.of_nat (List.length P)) 2 = t).
    { replace 2 with (Z.of_nat (List.length T)) by (rewrite Ht'; reflexivity).
      rewrite (substr_mid s P T (D ++ V ++ R)) by exact Hs.
      apply string_of_list_ascii_of_string. }
    assert (Hls : substr s (Z.of_nat (List.length P) + 2) 2 = d).
    { replace (Z.of_nat (List.length P) + 2) with (Z.of_nat (List.length (P ++ T)))
        by (rewrite length_app; lia).
      replace 2 with (Z.of_nat (List.length D)) by (rewrite Hd; reflexivity).
      rewrite (substr_mid s (P ++ T) D (V ++ R))
        by (rewrite Hs, <- !app_assoc; reflexivity).
      apply string_of_list_ascii_of_string. }
    rewrite Hid, Hls.
    subst d. rewrite parseInt_two_digits by (rewrite <- length_list_ascii_of_string; exact Hv).
    cbn [isNaN to_Z negb].
    rewrite <- length_list_ascii_of_string.
    fold V.
    assert (Hv' : substr s (Z.of_nat (List.length P) + 4) (Z.of_nat (List.length V)) = v).
    { replace (Z.of_nat (List.length P) + 4) with (Z.of_nat (List.length (P ++ T ++ D)))
        by (rewrite !length_app; lia).
      rewrite (substr_mid s (P ++ T ++ D) V R)
        by (rewrite Hs, <- !app_assoc; reflexivity).
      apply string_of_list_ascii_of_string. }
    rewrite Hv'.
    replace (Z.of_nat (List.length P) + 4 + Z.of_nat (List.length V))
      with (Z.of_nat (List.length (P ++ T ++ D ++ V))) by (rewrite !length_app; lia).
    apply IH; [| simpl in Hfuel; lia].
    rewrite Hs, <- !app_assoc. reflexivity.
Qed.

(** C5: decoding the concatenated TAG + LEN + VALUE blocks of any sequence
    of well-formed pairs yields exactly the mapping the sequence induces,
    whatever its length, a repeated tag keeping its last value. *)
Theorem tlv_roundtrip (l : list (string * string)) (fuel : nat) :
  Forall wf_entry l -> (List.length l < fuel)%nat ->
  parseSubTags fuel (encode l) = Some (induced l).
Proof.
  intros Hwf Hfuel. unfold parseSubTags, induced.
  apply (tlv_loop_encode l Hwf fuel (encode l) [] ∅); [reflexivity | exact Hfuel].
Qed.

Lemma tlv_roundtrip_witness :
  parseSubTags 4 (encode [("00", "01"); ("59", "MERCHANT A"); ("00", "02")])
  = Some (<["59" := "MERCHANT A"]> (<["00" := "02"]> ∅)).
Proof.
  rewrite (tlv_roundtrip [("00", "01"); ("59", "MERCHANT A"); ("00", "02")] 4).
  - reflexivity.
  - repeat constructor.
  - cbn. lia.
Defined.

(* ------------------------------------------------------------------ *)
(** ** The loop on malformed length fields *)

Lemma tlv_loop_fuel_mono (n : nat) (s : string) (i : Z) (m r : gmap string string) :
  tlv_loop n s i m = Some r -> forall k, (n <= k)%nat -> tlv_loop k s i m = Some r.
Proof.
  revert i m. induction n as [|n IH]; intros i m H k Hk; [discriminate|].
  destruct k as [|k]; [lia|]. simpl in *.
  destruct (i <? Z.of_nat (String.length s)); [|exact H].
  destruct (tlv_step s i m) as [[i' m']|]; [apply IH; [exact H | lia] | exact H].
Qed.

Lemma is_digit_cases (d : ascii) :
  is_digit d = true ->
  d = "0"%char \/ d = "1"%char \/ d = "2"%char \/ d = "3"%char \/ d = "4"%char \/
  d = "5"%char \/ d = "6"%char \/ d = "7"%char \/ d = "8"%char \/ d = "9"%char.
Proof.
  destruct d as [[] [] [] [] [] [] [] []]; vm_compute; intros H;
    first [discriminate | tauto].
Qed.

(** A two-character length field made of a digit and a non-digit reads as
    the digit. *)
Lemma parseInt_digit_nondigit (d c : ascii) :
  is_digit d = true -> is_digit c = false ->
  parseInt (String d (String c EmptyString)) (Some 10) = Num false (digit_value d).
Proof.
  intros Hd Hc.
  destruct (is_digit_cases d Hd) as [->|[->|[->|[->|[->|[->|[->|[->|[->| ->]]]]]]]]];
    destruct c as [[] [] [] [] [] [] [] []]; vm_compute in Hc;
    first [discriminate | vm_compute; reflexivity].
Qed.

(** A length field that starts with a digit never reads as NaN. *)
Lemma parseInt_digit_first (d : ascii) (r : string) :
  is_digit d = true -> parseInt (String d r) (Some 10) <> NaN.
Proof.
  intros Hd.
  destruct (is_digit_cases d Hd) as [->|[->|[->|[->|[->|[->|[->|[->|[->| ->]]]]]]]]];
    unfold parseInt; cbn; discriminate.
Qed.

Lemma tlv_step_none_iff (s : string) (i : Z) (m : gmap string string) :
  tlv_step s i m = None <-> parseInt (substr s (i + 2) 2) (Some 10) = NaN.
Proof.
  unfold tlv_step.
  destruct (parseInt (substr s (i + 2) 2) (Some 10)); simpl; split; congruence.
Qed.

(** One turn of the loop at a digit + non-digit length field. *)
Lemma tlv_loop_digit_nondigit (fuel : nat) (s : string) (i : Z)
    (m : gmap string string) (d c : ascii) :
  i < Z.of_nat (String.length s) ->
  substr s (i + 2) 2 = String d (String c EmptyString) ->
  is_digit d = true -> is_digit c = false ->
  tlv_loop (S fuel) s i m =
    tlv_loop fuel s (i + 4 + digit_value d)
      (<[substr s i 2 := substr s (i + 4) (digit_value d)]> m).
Proof.
  intros Hi Hl Hd Hc. simpl.
  destruct (Z.ltb_spec i (Z.of_nat (String.length s))); [|lia].
  unfold tlv_step. rewrite Hl, (parseInt_digit_nondigit d c Hd Hc).
  reflexivity.
Qed.

Lemma in_firstn_incl {A} (x : A) (n : nat) (l : list A) : In x (firstn n l) -> In x l.
Proof. intros H. rewrite <- (firstn_skipn n l). apply in_or_app. left. exact H. Qed.

Lemma in_skipn_incl {A} (x : A) (n : nat) (l : list A) : In x (skipn n l) -> In x l.
Proof. intros H. rewrite <- (firstn_skipn n l). apply in_or_app. right. exact H. Qed.

Lemma in_substr (c : ascii) (s : string) (a b : Z) :
  In c (list_ascii_of_string (substr s a b)) -> In c (list_ascii_of_string s).
Proof.
  unfold substr. rewrite list_ascii_of_string_of_list_ascii.
  intros H. eapply in_skipn_incl, in_firstn_incl, H.
Qed.

Lemma in_trim_start (c : ascii) (l : list ascii) : In c (trim_start l) -> In c l.
Proof.
  induction l as [|x l IH]; simpl; [tauto|].
  destruct (is_ws x); [intros H; right; exact (IH H) | tauto].
Qed.

Lemma digit_val_nonneg (c : ascii) (k : Z) : digit_val c = Some k -> 0 <= k.
Proof.
  unfold digit_val.
  repeat match goal with |- context [if ?b then _ else _] => destruct b eqn:? end;
    intros H; inversion H; subst;
    repeat match goal with H : (_ && _) = true |- _ => apply andb_prop in H; destruct H end;
    rewrite ?Z.leb_le in *; lia.
Qed.

Lemma digits_prefix_nonneg (R : Z) (l : list ascii) :
  Forall (fun d => 0 <= d) (digits_prefix R l).
Proof.
  induction l as [|c l IH]; simpl; [constructor|].
  destruct (digit_val c) as [k|] eqn:E; [|constructor].
  destruct (k <? R); constructor; [eapply digit_val_nonneg; eauto | exact IH].
Qed.

Lemma digits_value_nonneg (R : Z) (ds : list Z) :
  0 <= R -> Forall (fun d => 0 <= d) ds -> 0 <= digits_value R ds.
Proof.
  intros HR Hds. unfold digits_value.
  assert (Hacc : forall acc, 0 <= acc ->
            0 <= List.fold_left (fun acc d => acc * R + d) ds acc).
  { induction Hds as [|d ds Hd Hds IH]; intros acc Hacc; simpl; [lia|].
    apply IH. nia. }
  apply Hacc. lia.
Qed.

Lemma round_double_nonneg (n : Z) : 0 <= n -> 0 <= round_double n.
Proof.
  intros Hn. unfold round_double.
  destruct (Z.log2 n <? 53); [exact Hn|].
  assert (Hq : 0 <= Z.shiftr n (Z.log2 n - 52)) by (apply Z.shiftr_nonneg; exact Hn).
  destruct (_ || _); apply Z.shiftl_nonneg; lia.
Qed.

(** Without a '-' character, a length field never reads as a negative
    number. *)
Lemma parseInt_no_minus (s : string) (neg : bool) (k : Z) :
  ~ In "-"%char (list_ascii_of_string s) ->
  parseInt s (Some 10) = Num neg k -> neg = false /\ 0 <= k.
Proof.
  intros Hs H. unfold parseInt in H.
  assert (Ht : ~ In "-"%char (trim_start (list_ascii_of_string s)))
    by (intros Hin; apply Hs, in_trim_start, Hin).
  destruct (trim_start (list_ascii_of_string s)) as [|c rest] eqn:E;
    [discriminate|].
  destruct (Ascii.eqb c "-") eqn:Ec.
  { apply Ascii.eqb_eq in Ec. subst c. exfalso. apply Ht. left. reflexivity. }
  destruct (Ascii.eqb c "+"); cbn -[digits_value round_double digits_prefix] in H;
  match type of H with
  | match ?e with [] => _ | _ :: _ => _ end = _ => destruct e as [|d ds] eqn:Eds
  end; try discriminate; injection H as <- <-;
  (split; [reflexivity|]); apply round_double_nonneg, digits_value_nonneg; try lia;
  rewrite <- Eds; apply digits_prefix_nonneg.
Qed.

Lemma tlv_loop_terminates_aux (n : nat) (s : string) (i : Z) (m : gmap string string) :
  ~ In "-"%char (list_ascii_of_string s) -> 0 <= i ->
  Z.max (Z.of_nat (String.length s) - i) 0 < Z.of_nat n ->
  exists r, tlv_loop n s i m = Some r.
Proof.
  revert i m. induction n as [|n IH]; intros i m Hs Hi Hn; [lia|].
  simpl. destruct (Z.ltb_spec i (Z.of_nat (String.length s))); [|eauto].
  unfold tlv_step.
  destruct (parseInt (substr s (i + 2) 2) (Some 10)) as [|neg k] eqn:E; [simpl; eauto|].
  destruct (parseInt_no_minus (substr s (i + 2) 2) neg k) as [-> Hk];
    [intros Hin; apply Hs; eapply in_substr; exact Hin | exact E |].
  simpl. apply IH; [exact Hs | lia | lia].
Qed.

(** With no '-' in the payload the loop always finishes, within
    [length + 1] iterations, and more fuel does not change its result. *)
Lemma tlv_loop_terminates (s : string) (m : gmap string string) :
  ~ In "-"%char (list_ascii_of_string s) ->
  exists r, forall fuel, (String.length s < fuel)%nat -> tlv_loop fuel s 0 m = Some r.
Proof.
  intros Hs.
  destruct (tlv_loop_terminates_aux (S (String.length s)) s 0 m Hs) as [r Hr];
    [lia | lia |].
  exists r. intros fuel Hf. apply (tlv_loop_fuel_mono _ _ _ _ _ Hr). lia.
Qed.

(** A length field of "-4" leaves the cursor where it is: on "00-4" the
    loop runs forever, whatever the fuel. *)
Lemma tlv_loop_negative_length_diverges (fuel : nat) (m : gmap string string) :
  tlv_loop fuel "00-4" 0 m = None.
Proof.
  revert m. induction fuel as [|fuel IH]; intros m; [reflexivity|].
  cbn -[tlv_step]. exact (IH _).
Qed.

(** C6 (amended): the loop raises no error (the model has no error
    outcome); it stops with the tags accumulated so far when the cursor
    reaches or passes the end of the payload, or when the length field
    reads as NaN; a length field such as "5A" is read as its leading digit
    and scanning goes on; and on a payload without a '-' character every
    length is non-negative and the loop always terminates. *)
Theorem tlv_loop_malformed_lengths :
  (forall fuel s i (m : gmap string string),
     Z.of_nat (String.length s) <= i -> tlv_loop (S fuel) s i m = Some m) /\
  (forall fuel s i (m : gmap string string),
     i < Z.of_nat (String.length s) ->
     parseInt (substr s (i + 2) 2) (Some 10) = NaN ->
     tlv_loop (S fuel) s i m = Some m) /\
  (forall fuel s i (m : gmap string string) d c,
     i < Z.of_nat (String.length s) ->
     substr s (i + 2) 2 = String d (String c EmptyString) ->
     is_digit d = true -> is_digit c = false ->
     tlv_loop (S fuel) s i m =
       tlv_loop fuel s (i + 4 + digit_value d)
         (<[substr s i 2 := substr s (i + 4) (digit_value d)]> m)) /\
  (forall s (m : gmap string string),
     ~ In "-"%char (list_ascii_of_string s) ->
     exists r, forall fuel, (String.length s < fuel)%nat -> tlv_loop fuel s 0 m = Some r).
Proof.
  split; [|split; [|split]].
  - intros fuel s i m Hi. simpl.
    destruct (Z.ltb_spec i (Z.of_nat (String.length s))); [lia | reflexivity].
  - intros fuel s i m Hi Hnan. simpl.
    destruct (Z.ltb_spec i (Z.of_nat (String.length s))); [|lia].
    rewrite (proj2 (tlv_step_none_iff s i m) Hnan). reflexivity.
  - intros fuel s i m d c. apply tlv_loop_digit_nondigit.
  - exact tlv_loop_terminates.
Qed.

Lemma tlv_loop_malformed_lengths_witness :
  (0 < Z.of_nat (String.length "00AB") /\
   parseInt (substr "00AB" (0 + 2) 2) (Some 10) = NaN) /\
  tlv_loop 1 "00AB" 0 ∅ = Some ∅.
Proof.
  split; [split; reflexivity|].
  apply (proj1 (proj2 tlv_loop_malformed_lengths) 0%nat "00AB" 0 ∅); reflexivity.
Defined.

(** C6 counterexample: the length field "5A" does not parse as a base-10
    integer, yet the loop does not stop there: it reads a length of 5 and
    goes on to the next tag. *)
Lemma tlv_loop_continues_past_5A :
  parseSubTags 10 "005Aabcde1100" = Some (<["11" := ""]> (<["00" := "abcde"]> ∅)).
Proof. reflexivity. Qed.

(** C9: at a length field made of a digit and a non-digit the loop takes
    the digit as the length, consumes that many characters and goes on;
    the loop breaks exactly when the length field reads as NaN, which a
    field starting with a digit never does. *)
Theorem tlv_length_digit_then_nondigit (fuel : nat) (s : string) (i : Z)
    (m : gmap string string) (d c : ascii) :
  i < Z.of_nat (String.length s) ->
  substr s (i + 2) 2 = String d (String c EmptyString) ->
  is_digit d = true -> is_digit c = false ->
  tlv_loop (S fuel) s i m =
    tlv_loop fuel s (i + 4 + digit_value d)
      (<[substr s i 2 := substr s (i + 4) (digit_value d)]> m) /\
  (forall j (m' : gmap string string),
     tlv_step s j m' = None <-> parseInt (substr s (j + 2) 2) (Some 10) = NaN) /\
  (forall j (m' : gmap string string) d' r,
     substr s (j + 2) 2 = String d' r -> is_digit d' = true -> tlv_step s j m' <> None).
Proof.
  intros Hi Hl Hd Hc. split; [|split].
  - exact (tlv_loop_digit_nondigit fuel s i m d c Hi Hl Hd Hc).
  - apply tlv_step_none_iff.
  - intros j m' d' r Hl' Hd' Hnone.
    apply (proj1 (tlv_step_none_iff s j m')) in Hnone.
    rewrite Hl' in Hnone. exact (parseInt_digit_first d' r Hd' Hnone).
Qed.

Lemma tlv_length_digit_then_nondigit_witness :
  (0 < Z.of_nat (String.length "005Aabcde1100") /\
   substr "005Aabcde1100" (0 + 2) 2 = String "5" (String "A" EmptyString) /\
   is_digit "5" = true /\ is_digit "A" = false) /\
  tlv_loop 3 "005Aabcde1100" 0 ∅ = tlv_loop 2 "005Aabcde1100" (0 + 4 + digit_value "5")
    (<[substr "005Aabcde1100" 0 2 := substr "005Aabcde1100" (0 + 4) (digit_value "5")]> ∅).
Proof.
  split; [repeat split; reflexivity|].
  refine (proj1 (tlv_length_digit_then_nondigit 2 "005Aabcde1100" 0 ∅ "5" "A"
                   _ _ _ _)); reflexivity.
Defined.

(* ------------------------------------------------------------------ *)
(** ** Field extraction *)

Lemma digit_val_is_digit (c : ascii) :
  match digit_val c with Some k => k <? 10 | None => false end = is_digit c /\
  (is_digit c = true -> digit_val c = Some (digit_value c)).
Proof.
  destruct c as [[] [] [] [] [] [] [] []]; vm_compute; split;
    first [reflexivity | discriminate | intros; reflexivity].
Qed.

Lemma digits_prefix_decimal (l : list ascii) :
  digits_prefix 10 l = List.map digit_value (leading_decimal l).
Proof.
  induction l as [|c l IH]; simpl; [reflexivity|].
  destruct (digit_val_is_digit c) as [H1 H2].
  destruct (is_digit c) eqn:Ec.
  - rewrite (H2 eq_refl), IH. simpl. rewrite (H2 eq_refl) in H1. rewrite H1. reflexivity.
  - destruct (digit_val c) as [k|]; [|reflexivity]. rewrite H1. reflexivity.
Qed.

Lemma digits_value_decimal (ds : list ascii) :
  digits_value 10 (List.map digit_value ds) = decimal_value ds.
Proof.
  unfold digits_value, decimal_value.
  generalize 0. induction ds as [|c ds IH]; intros acc; simpl; [reflexivity|].
  apply IH.
Qed.

(** Without a hexadecimal prefix, [parseInt] with no radix reads a value
    as base 10. *)
Lemma parseInt_base10 (v : string) (neg : bool) (n : Z) :
  hex_prefixed v = false -> base10_reading v = Some (neg, n) ->
  parseInt v None = Num neg (round_double n).
Proof.
  unfold hex_prefixed, base10_reading, parseInt.
  change (match trim_start (list_ascii_of_string v) with
          | c :: r => if Ascii.eqb c "-"%char then (true, r)
                      else if Ascii.eqb c "+"%char then (false, r)
                      else (false, trim_start (list_ascii_of_string v))
          | [] => (false, trim_start (list_ascii_of_string v))
          end) with (sign_split (trim_start (list_ascii_of_string v))).
  destruct (sign_split (trim_start (list_ascii_of_string v))) as [ng rest].
  intros Hx Hr. cbn.
  assert (Hrest : match rest with
                  | c0 :: c1 :: r =>
                      if Ascii.eqb c0 "0"%char && is_x c1 then (16, r) else (10, rest)
                  | _ => (10, rest)
                  end = (10, rest)).
  { destruct rest as [|c0 [|c1 r]]; try reflexivity. rewrite Hx. reflexivity. }
  rewrite Hrest, digits_prefix_decimal.
  destruct (leading_decimal rest) as [|d ds] eqn:E; [discriminate|].
  injection Hr as <- <-. cbn [List.map].
  rewrite <- digits_value_decimal. reflexivity.
Qed.

(** Below 2^53 every integer is a double. *)
Lemma round_double_small (n : Z) : n < 2 ^ 53 -> round_double n = n.
Proof.
  intros H. unfold round_double.
  destruct (Z.lt_ge_cases 0 n) as [Hp | Hp].
  - assert (Hk : Z.log2 n < 53) by (apply Z.log2_lt_pow2; lia).
    apply Z.ltb_lt in Hk. rewrite Hk. reflexivity.
  - rewrite Z.log2_nonpos by lia. reflexivity.
Qed.

(** From 2^53 on, rounding stays at or above 2^53. *)
Lemma round_double_large (n : Z) : 2 ^ 53 <= n -> 2 ^ 53 <= round_double n.
Proof.
  intros H. unfold round_double.
  assert (Hn : 0 < n) by lia.
  assert (Hk : 53 <= Z.log2 n).
  { rewrite <- (Z.log2_pow2 53) by lia. apply Z.log2_le_mono. exact H. }
  destruct (Z.log2_spec n Hn) as [Hlo _].
  replace (Z.log2 n <? 53) with false by (symmetry; apply Z.ltb_ge; lia).
  set (k := Z.log2 n) in *.
  assert (Hq : 2 ^ 52 <= Z.shiftr n (k - 52)).
  { rewrite Z.shiftr_div_pow2 by lia. apply Z.div_le_lower_bound; [lia|].
    rewrite <- Z.pow_add_r by lia. replace (k - 52 + 52) with k by lia. exact Hlo. }
  assert (Hp : 2 ^ 53 <= 2 ^ 52 * 2 ^ (k - 52)).
  { rewrite <- Z.pow_add_r by lia. apply Z.pow_le_mono_r; lia. }
  assert (H2 : 0 < 2 ^ (k - 52)) by (apply Z.pow_pos_nonneg; lia).
  destruct (_ || _); rewrite Z.shiftl_mul_pow2 by lia; nia.
Qed.

Lemma pick_in (m : Z) (best : Z * Z) (l : list (Z * Z)) :
  In (pick m best l) (best :: l).
Proof.
  revert best. induction l as [|c l IH]; intros best; simpl; [left; reflexivity|].
  destruct (closer m c best);
    [destruct (IH c) as [E | H] | destruct (IH best) as [E | H]];
    simpl in *; tauto.
Qed.

Lemma shortest_search_in (m : Z) (fuel : nat) (k : Z) (c : Z * Z) :
  shortest_search m fuel k = Some c -> exists k', In c (shortest_candidates m k').
Proof.
  revert k. induction fuel as [|f IH]; intros k H; [discriminate|]. simpl in H.
  destruct (shortest_candidates m k) as [|c0 cs] eqn:E.
  - exact (IH _ H).
  - injection H as <-. exists k. rewrite E. apply pick_in.
Qed.

Lemma shortest_candidates_round (m k s e : Z) :
  In (s, e) (shortest_candidates m k) -> round_double (s * 10 ^ e) = m.
Proof.
  unfold shortest_candidates. rewrite in_flat_map. intros [n [_ Hn]].
  destruct (n - k <? 0); [destruct Hn|].
  apply in_map_iff in Hn. destruct Hn as [s' [Hs Hin]]. injection Hs as <- <-.
  apply filter_In in Hin. destruct Hin as [_ Hf].
  apply andb_prop in Hf. destruct Hf as [_ Hf]. apply Z.eqb_eq in Hf. exact Hf.
Qed.

(** An integer below 2^53 is spelled with all its digits. *)
Lemma shortest_decimal_exact (m : Z) : 0 <= m < 2 ^ 53 -> shortest_decimal m = m.
Proof.
  intros Hm. unfold shortest_decimal.
  destruct (m <=? 0) eqn:E; [apply Z.leb_le in E; lia|].
  destruct (shortest_search m _ 1) as [[s e]|] eqn:Hs; [|reflexivity].
  apply shortest_search_in in Hs. destruct Hs as [k Hk].
  apply shortest_candidates_round in Hk.
  destruct (Z.lt_ge_cases (s * 10 ^ e) (2 ^ 53)) as [Hl | Hl].
  - rewrite round_double_small in Hk by exact Hl. exact Hk.
  - apply round_double_large in Hl. lia.
Qed.

Lemma leading_decimal_digits (l : list ascii) :
  Forall (fun c => is_digit c = true) (leading_decimal l).
Proof.
  induction l as [|c l IH]; simpl; [constructor|].
  destruct (is_digit c) eqn:E; [constructor; assumption | constructor].
Qed.

(** A base-10 reading is never negative: the sign is kept apart. *)
Lemma base10_reading_nonneg (v : string) (neg : bool) (n : Z) :
  base10_reading v = Some (neg, n) -> 0 <= n.
Proof.
  unfold base10_reading.
  destruct (sign_split (trim_start (list_ascii_of_string v))) as [ng rest].
  pose proof (leading_decimal_digits rest) as Hd.
  destruct (leading_decimal rest) as [|c ds]; [discriminate|].
  intros H. injection H as _ <-.
  rewrite <- digits_value_decimal. apply digits_value_nonneg; [lia|].
  apply List.Forall_map. refine (List.Forall_impl _ _ Hd). intros x Hx.
  unfold is_digit in Hx. apply andb_prop in Hx. destruct Hx as [Hx _].
  apply Nat.leb_le in Hx. unfold digit_value. lia.
Qed.

Lemma present_not_empty (v : option string) : present v <> Some EmptyString.
Proof. destruct v as [[|c v]|]; discriminate. Qed.

Lemma match_nmid_not_empty (l : list ascii) : match_nmid l <> Some EmptyString.
Proof.
  induction l as [|c l IH]; simpl; [discriminate|].
  match goal with |- context [if ?b then _ else _] => destruct b end;
    [discriminate | exact IH].
Qed.

Lemma nmid_step1_spec (fuel : nat) (tags : gmap string string) :
  nmid_step1 fuel tags = spec_step_a fuel tags.
Proof.
  unfold nmid_step1, spec_step_a, nmid_tag51.
  destruct (tags !! "51") as [[|c v]|]; simpl; try reflexivity.
  destruct (parseSubTags fuel (String c v)) as [sub|]; simpl; [|reflexivity].
  destruct (sub !! "02") as [[|c2 v2]|]; destruct (sub !! "03") as [[|c3 v3]|];
    reflexivity.
Qed.

Lemma spec_step_a_not_empty (fuel : nat) (tags : gmap string string) :
  spec_step_a fuel tags <> Some (Some EmptyString).
Proof.
  unfold spec_step_a.
  destruct (present (tags !! "51")) as [v|]; [|discriminate].
  destruct (parseSubTags fuel v) as [sub|]; simpl; [|discriminate].
  destruct (present (sub !! "02")) as [x|] eqn:E.
  - intros [= ->]. exact (present_not_empty _ E).
  - intros [= E']. exact (present_not_empty _ E').
Qed.

Lemma nmid_step2_unresolved (fuel : nat) (tags : gmap string string) :
  nmid_step2 fuel tags None = spec_step_b fuel tags.
Proof.
  unfold nmid_step2, spec_step_b, nmid_tag62.
  destruct (tags !! "62") as [[|c v]|]; simpl; try reflexivity.
  destruct (parseSubTags fuel (String c v)) as [sub|]; simpl; [|reflexivity].
  destruct (sub !! "07") as [[|c7 v7]|]; reflexivity.
Qed.

Lemma nmid_step2_resolved (fuel : nat) (tags : gmap string string) (c : ascii) (x : string) :
  nmid_step2 fuel tags (Some (String c x)) = Some (Some (String c x)).
Proof.
  unfold nmid_step2. destruct (tags !! "62"); reflexivity.
Qed.

Lemma spec_step_b_not_empty (fuel : nat) (tags : gmap string string) :
  spec_step_b fuel tags <> Some (Some EmptyString).
Proof.
  unfold spec_step_b. cbv [mbind option_bind].
  destruct (present (tags !! "62")) as [v|]; [|discriminate].
  destruct (parseSubTags fuel v) as [sub|]; simpl; [|discriminate].
  destruct (sub !! "07") as [[|c x]|]; cbn -[startsWith]; try discriminate.
  destruct (startsWith (String c x) "ID"); discriminate.
Qed.

Lemma extractFields_nmid (fuel : nat) (p : string) (tags : gmap string string)
    (d : QRISData) :
  extractFields fuel p tags = Some d -> nmid_chain_spec fuel p tags = Some (nmid d).
Proof.
  unfold extractFields, nmid_chain_spec. cbv [mbind option_bind].
  rewrite nmid_step1_spec.
  pose proof (spec_step_a_not_empty fuel tags) as Ha.
  destruct (spec_step_a fuel tags) as [[[|c x]|]|]; intros H;
    [congruence | | | discriminate].
  - rewrite nmid_step2_resolved in H. injection H as <-. reflexivity.
  - rewrite nmid_step2_unresolved in H.
    pose proof (spec_step_b_not_empty fuel tags) as Hb.
    destruct (spec_step_b fuel tags) as [[[|c x]|]|]; [congruence | | | discriminate];
      injection H as <-; unfold nmid_step3; simpl; [reflexivity|].
    destruct (match_nmid (list_ascii_of_string p)); reflexivity.
Qed.

Lemma extractFields_fields (fuel : nat) (p : string) (tags : gmap string string)
    (d : QRISData) :
  extractFields fuel p tags = Some d ->
  merchantName d = (if truthy (tags !! "59") then tags !! "59" else None) /\
  amount d = match tags !! "54" with
             | Some v => if truthy (Some v)
                         then Some ("Rp. " ++ toLocaleString_idID (parseInt v None))%string
                         else None
             | None => None
             end.
Proof.
  unfold extractFields. cbv [mbind option_bind].
  destruct (nmid_step1 fuel tags) as [n1|]; [|discriminate].
  destruct (nmid_step2 fuel tags n1) as [n2|]; [|discriminate].
  intros [= <-]. split; reflexivity.
Qed.

Lemma parseQRIS_extract (fuel : nat) (p : string) (tags : gmap string string)
    (d : QRISData) :
  tlv_loop fuel p 0 ∅ = Some tags -> parseQRIS fuel p = Some d ->
  extractFields fuel p tags = Some d.
Proof. unfold parseQRIS. intros -> H. exact H. Qed.

(** C1 (amended): whenever [parseQRIS] returns, its nmid is the result of
    the chain (a) tag 51's sub-tag 02, else 03, (b) tag 62's sub-tag 07 if
    it starts with "ID", (c) the leftmost match of ID[0-9]{8,15} in the raw
    payload, (d) unset, where each step runs only while nmid is unresolved
    and a tag counts as present only with a non-empty value. *)
Theorem parseQRIS_nmid_chain (fuel : nat) (p : string) (tags : gmap string string)
    (d : QRISData) :
  tlv_loop fuel p 0 ∅ = Some tags -> parseQRIS fuel p = Some d ->
  nmid_chain_spec fuel p tags = Some (nmid d).
Proof.
  intros Ht Hp. apply extractFields_nmid, (parseQRIS_extract fuel p tags d Ht Hp).
Qed.

Lemma parseQRIS_nmid_chain_witness :
  nmid_chain_spec 20 "00020151160212ID12345678905912ID5555555555"
    (<["59" := "ID5555555555"]> (<["51" := "0212ID1234567890"]> (<["00" := "01"]> ∅)))
  = Some (Some "ID1234567890").
Proof.
  apply (parseQRIS_nmid_chain 20
           "00020151160212ID12345678905912ID5555555555"
           (<["59" := "ID5555555555"]> (<["51" := "0212ID1234567890"]> (<["00" := "01"]> ∅)))
           {| merchantName := Some "ID5555555555"; nmid := Some "ID1234567890";
              amount := None;
              raw := Some "00020151160212ID12345678905912ID5555555555" |});
    reflexivity.
Defined.

(** C1 counterexample: on "ID9876543210", whose decoded tags hold neither
    51 nor 62, nmid is "ID9876543210" and not "ID987654321" (the pattern
    is greedy up to 15 digits); and with tag 51 holding sub-tag 02 = ""
    (present) and sub-tag 03 = "ID1234567890", nmid is the 03 value. *)
Lemma parseQRIS_nmid_counterexample :
  parseSubTags 10 "ID9876543210" = Some (<["ID" := "76543210"]> ∅) /\
  option_map nmid (parseQRIS 10 "ID9876543210") = Some (Some "ID9876543210") /\
  parseSubTags 10 "02000312ID1234567890"
    = Some (<["03" := "ID1234567890"]> (<["02" := ""]> ∅)) /\
  option_map nmid (parseQRIS 10 "512002000312ID1234567890")
    = Some (Some "ID1234567890").
Proof. vm_compute. repeat split. Qed.

(** C3 (amended): whenever [parseQRIS] returns, merchantName is the value
    of tag 59 when it is non-empty and unset otherwise; amount is unset
    when tag 54 is absent or empty; and when tag 54's value reads as a
    base-10 integer (leading whitespace, optional sign, decimal digits)
    without a 0x prefix, amount is "Rp. " followed by the sign and the
    shortest round-trip digits of the integer as a double, grouped in
    threes with "."; below 2^53 these are the integer's own digits. *)
Theorem parseQRIS_merchantName_amount (fuel : nat) (p : string)
    (tags : gmap string string) (d : QRISData) :
  tlv_loop fuel p 0 ∅ = Some tags -> parseQRIS fuel p = Some d ->
  merchantName d = present (tags !! "59") /\
  (present (tags !! "54") = None -> amount d = None) /\
  (forall v neg n, tags !! "54" = Some v -> hex_prefixed v = false ->
     base10_reading v = Some (neg, n) ->
     amount d = Some ("Rp. " ++ (if neg then "-" else "") ++
                      group_thousands (shortest_decimal (round_double n)))%string /\
     (n < 2 ^ 53 ->
      amount d = Some ("Rp. " ++ (if neg then "-" else "") ++ group_thousands n)%string)).
Proof.
  intros Ht Hp.
  destruct (extractFields_fields fuel p tags d (parseQRIS_extract fuel p tags d Ht Hp))
    as [Hm Ha].
  split; [|split].
  - rewrite Hm. destruct (tags !! "59") as [[|c v]|]; reflexivity.
  - rewrite Ha. destruct (tags !! "54") as [[|c v]|]; simpl; congruence.
  - intros v neg n Hv Hx Hr. rewrite Ha, Hv.
    destruct v as [|c v]; [discriminate|].
    cbn [truthy]. rewrite (parseInt_base10 _ neg n Hx Hr).
    split; [reflexivity|]. intros Hn.
    pose proof (base10_reading_nonneg _ neg n Hr) as H0.
    unfold toLocaleString_idID.
    rewrite round_double_small, shortest_decimal_exact by lia. reflexivity.
Qed.

Lemma parseQRIS_merchantName_amount_witness :
  amount {| merchantName := None; nmid := None; amount := Some "Rp. 150.000";
            raw := Some "5406150000" |}
  = Some ("Rp. " ++ (if false then "-" else "") ++
          group_thousands (shortest_decimal (round_double 150000)))%string.
Proof.
  refine (proj1 (proj2 (proj2 (parseQRIS_merchantName_amount 10 "5406150000"
                          (<["54" := "150000"]> ∅)
                          {| merchantName := None; nmid := None;
                             amount := Some "Rp. 150.000";
                             raw := Some "5406150000" |} _ _)) "150000" false 150000 _ _ _));
    reflexivity.
Defined.

(** C3 counterexample: tag 59 present with the empty value leaves
    merchantName unset, and tag 54 = "0x10" is read as hexadecimal. *)
Lemma parseQRIS_fields_counterexample :
  parseSubTags 10 "5900" = Some (<["59" := ""]> ∅) /\
  option_map merchantName (parseQRIS 10 "5900") = Some None /\
  option_map amount (parseQRIS 10 "54040x10") = Some (Some "Rp. 16").
Proof. vm_compute. repeat split. Qed.

(** C4 (code bug): [parseQRIS] raises no error, but when tag 54 holds a
    non-empty value that [parseInt] reads as NaN, amount is set to
    "Rp. NaN" instead of being left unset: the amount path has no NaN
    check. *)
Theorem parseQRIS_amount_nan (fuel : nat) (p : string) (tags : gmap string string)
    (d : QRISData) (v : string) :
  tlv_loop fuel p 0 ∅ = Some tags -> parseQRIS fuel p = Some d ->
  tags !! "54" = Some v -> v <> EmptyString -> parseInt v None = NaN ->
  amount d = Some "Rp. NaN".
Proof.
  intros Ht Hp Hv Hne Hnan.
  destruct (extractFields_fields fuel p tags d (parseQRIS_extract fuel p tags d Ht Hp))
    as [_ Ha].
  rewrite Ha, Hv. destruct v as [|c v]; [congruence|].
  cbn [truthy]. rewrite Hnan. reflexivity.
Qed.

Lemma parseQRIS_amount_nan_witness :
  amount {| merchantName := None; nmid := None; amount := Some "Rp. NaN";
            raw := Some "5403abc" |} = Some "Rp. NaN".
Proof.
  apply (parseQRIS_amount_nan 10 "5403abc" (<["54" := "abc"]> ∅)
           {| merchantName := None; nmid := None; amount := Some "Rp. NaN";
              raw := Some "5403abc" |} "abc");
    [reflexivity | reflexivity | reflexivity | discriminate | reflexivity].
Defined.

(** C4 failing input: tag 54 = "abc" is not a base-10 integer, yet
    amount is set, to "Rp. NaN". *)
Lemma parseQRIS_amount_counterexample :
  parseQRIS 10 "5403abc" =
    Some {| merchantName := None; nmid := None; amount := Some "Rp. NaN";
            raw := Some "5403abc" |}.
Proof. vm_compute. reflexivity. Qed.

Lemma extractFields_empty_as_absent (fuel : nat) (raw : string)
    (tags : gmap string string) (k : string) :
  In k ["59"; "54"; "51"; "62"] -> tags !! k = Some EmptyString ->
  extractFields fuel raw tags = extractFields fuel raw (delete k tags).
Proof.
  intros Hk He.
  unfold extractFields, nmid_step1, nmid_step2.
  destruct Hk as [<-|[<-|[<-|[<-|[]]]]];
    rewrite lookup_delete_eq, ?lookup_delete_ne by discriminate; rewrite He;
    cbn [truthy]; try reflexivity.
  cbv [mbind option_bind].
  destruct (match tags !! "51" with
            | Some v => if truthy (Some v) then _ else _
            | None => _ end); [|reflexivity].
  rewrite andb_false_r. reflexivity.
Qed.

(** C10: a tag used by field extraction that is present with the empty
    value is treated exactly as if it were absent: for top-level tags 59,
    54, 51 and 62 the whole extraction is unchanged by removing it, and for
    sub-tags 02, 03 and 07 the corresponding nmid step is unchanged (so the
    chain moves on); in particular an empty tag 59 or 54 leaves
    merchantName or amount unset. *)
Theorem empty_tag_treated_as_absent :
  (forall fuel raw (tags : gmap string string) k,
     In k ["59"; "54"; "51"; "62"] -> tags !! k = Some EmptyString ->
     extractFields fuel raw tags = extractFields fuel raw (delete k tags)) /\
  (forall (sub : gmap string string) nmid0 k,
     In k ["02"; "03"] -> sub !! k = Some EmptyString ->
     nmid_tag51 sub nmid0 = nmid_tag51 (delete k sub) nmid0) /\
  (forall (sub : gmap string string) nmid0,
     sub !! "07" = Some EmptyString ->
     nmid_tag62 sub nmid0 = nmid_tag62 (delete "07" sub) nmid0) /\
  (forall fuel p (tags : gmap string string) d,
     tlv_loop fuel p 0 ∅ = Some tags -> parseQRIS fuel p = Some d ->
     (tags !! "59" = Some EmptyString -> merchantName d = None) /\
     (tags !! "54" = Some EmptyString -> amount d = None)).
Proof.
  split; [|split; [|split]].
  - exact extractFields_empty_as_absent.
  - intros sub nmid0 k Hk He. unfold nmid_tag51.
    destruct Hk as [<-|[<-|[]]];
      rewrite lookup_delete_eq, ?lookup_delete_ne by discriminate; rewrite He;
      reflexivity.
  - intros sub nmid0 He. unfold nmid_tag62.
    rewrite lookup_delete_eq, He. reflexivity.
  - intros fuel p tags d Ht Hp.
    destruct (extractFields_fields fuel p tags d (parseQRIS_extract fuel p tags d Ht Hp))
      as [Hm Ha].
    split; intros He; [rewrite Hm | rewrite Ha]; rewrite He; reflexivity.
Qed.

Lemma empty_tag_treated_as_absent_witness :
  extractFields 10 "5900" (<["59" := ""]> ∅)
  = extractFields 10 "5900" (delete "59" (<["59" := ""]> ∅)).
Proof.
  apply (proj1 empty_tag_treated_as_absent 10%nat "5900" (<["59" := ""]> ∅) "59");
    [simpl; tauto | reflexivity].
Defined.

(* ------------------------------------------------------------------ *)
(** ** Further properties of the OCR, parsing, scanning and bulk upload code *)

Section OCRFacts.
Import OCR.

Lemma to_upper_clean (c : ascii) : keep_char c = true -> clean_char (to_upper c) = true.
Proof. destruct c as [[] [] [] [] [] [] [] []]; vm_compute; congruence. Qed.

Lemma to_upper_keep (c : ascii) : keep_char c = true -> keep_char (to_upper c) = true.
Proof. destruct c as [[] [] [] [] [] [] [] []]; vm_compute; congruence. Qed.

Lemma to_upper_idem (c : ascii) : to_upper (to_upper c) = to_upper c.
Proof. destruct c as [[] [] [] [] [] [] [] []]; reflexivity. Qed.

Lemma is_ws_to_upper (c : ascii) : is_ws (to_upper c) = is_ws c.
Proof. destruct c as [[] [] [] [] [] [] [] []]; reflexivity. Qed.

Lemma to_upper_ws (c : ascii) : is_ws c = true -> to_upper c = c.
Proof. destruct c as [[] [] [] [] [] [] [] []]; vm_compute; congruence. Qed.

Lemma trim_start_head (l : list ascii) (c : ascii) (r : list ascii) :
  trim_start l = c :: r -> is_ws c = false.
Proof.
  induction l as [|x l IH]; simpl; [discriminate|].
  destruct (is_ws x) eqn:E; [exact IH | intros [= <- _]; exact E].
Qed.

Lemma trim_start_suffix (l : list ascii) : exists p, l = p ++ trim_start l.
Proof.
  induction l as [|x l [p Hp]]; simpl; [exists []; reflexivity|].
  destruct (is_ws x); [exists (x :: p); simpl; congruence | exists []; reflexivity].
Qed.

Lemma trim_start_id (l : list ascii) :
  (forall c r, l = c :: r -> is_ws c = false) -> trim_start l = l.
Proof. destruct l as [|c r]; intros H; simpl; [reflexivity|]. now rewrite (H c r eq_refl). Qed.

Lemma trim_incl (c : ascii) (l : list ascii) : In c (trim l) -> In c l.
Proof.
  unfold trim. intros H. apply in_rev in H. apply in_trim_start in H.
  apply in_rev in H. apply in_trim_start in H. exact H.
Qed.

(** [trim] leaves no white space at either end. *)
Lemma trim_ends (l : list ascii) :
  (forall c r, trim l = c :: r -> is_ws c = false) /\
  (forall c r, trim l = r ++ [c] -> is_ws c = false).
Proof.
  unfold trim. set (T := trim_start l). set (U := trim_start (rev T)). split.
  - intros c r H.
    assert (HU : U = rev r ++ [c])
      by (rewrite <- (rev_involutive U), H; reflexivity).
    destruct (trim_start_suffix (rev T)) as [p Hp]. fold U in Hp.
    rewrite HU, app_assoc in Hp.
    assert (HT : T = c :: rev (p ++ rev r))
      by (rewrite <- (rev_involutive T), Hp, rev_app_distr; reflexivity).
    exact (trim_start_head l c _ HT).
  - intros c r H.
    assert (HU : U = c :: rev r)
      by (rewrite <- (rev_involutive U), H, rev_app_distr; reflexivity).
    exact (trim_start_head _ c _ HU).
Qed.

Lemma trim_id (l : list ascii) :
  (forall c r, l = c :: r -> is_ws c = false) ->
  (forall c r, l = r ++ [c] -> is_ws c = false) -> trim l = l.
Proof.
  intros Hh Hl. unfold trim. rewrite (trim_start_id l Hh).
  rewrite trim_start_id; [apply rev_involutive|].
  intros c r Hr. apply (Hl c (rev r)).
  rewrite <- (rev_involutive l), Hr. reflexivity.
Qed.

Lemma map_ends (f : ascii -> ascii) (l : list ascii) :
  (forall c, is_ws (f c) = is_ws c) ->
  (forall c r, l = c :: r -> is_ws c = false) ->
  (forall c r, l = r ++ [c] -> is_ws c = false) ->
  (forall c r, List.map f l = c :: r -> is_ws c = false) /\
  (forall c r, List.map f l = r ++ [c] -> is_ws c = false).
Proof.
  intros Hf Hh Hl. split.
  - intros c r H. destruct l as [|x t]; [discriminate|].
    injection H as <- _. rewrite Hf. exact (Hh x t eq_refl).
  - intros c r H. destruct l as [|x t] using rev_ind; [destruct r; discriminate|].
    rewrite map_app in H. simpl in H. apply app_inj_tail in H as [_ <-].
    rewrite Hf. exact (Hl x t eq_refl).
Qed.

Lemma clean_list (l : list ascii) :
  let o := List.map to_upper (trim (strip_artifacts l)) in
  Forall (fun c => clean_char c = true) o /\
  (forall c r, o = c :: r -> is_ws c = false) /\
  (forall c r, o = r ++ [c] -> is_ws c = false).
Proof.
  intros o. split.
  - apply List.Forall_forall. intros c Hc. subst o.
    apply in_map_iff in Hc as [x [<- Hx]].
    apply trim_incl in Hx. unfold strip_artifacts in Hx.
    apply filter_In in Hx as [_ Hk]. exact (to_upper_clean x Hk).
  - destruct (trim_ends (strip_artifacts l)) as [Hh Hl].
    exact (map_ends to_upper _ is_ws_to_upper Hh Hl).
Qed.

Lemma filter_all {A} (f : A -> bool) (l : list A) :
  List.Forall (fun x => f x = true) l -> List.filter f l = l.
Proof. induction 1 as [|x l Hx _ IH]; simpl; [reflexivity|]. now rewrite Hx, IH. Qed.

Lemma map_to_upper_idem (l : list ascii) :
  List.map to_upper (List.map to_upper l) = List.map to_upper l.
Proof. rewrite map_map. apply map_ext. apply to_upper_idem. Qed.

Lemma clean_list_idem (l : list ascii) :
  let o := List.map to_upper (trim (strip_artifacts l)) in
  List.map to_upper (trim (strip_artifacts o)) = o.
Proof.
  intros o.
  assert (Hf : strip_artifacts o = o).
  { unfold strip_artifacts. apply filter_all. subst o.
    apply List.Forall_forall. intros c Hc.
    apply in_map_iff in Hc as [x [<- Hx]].
    apply trim_incl in Hx. unfold strip_artifacts in Hx.
    apply filter_In in Hx as [_ Hk]. exact (to_upper_keep x Hk). }
  destruct (clean_list l) as [_ [Hh Hl]]. fold o in Hh, Hl.
  rewrite Hf, (trim_id o Hh Hl). subst o. apply map_to_upper_idem.
Qed.

Lemma collapse_ws_spaces (b : bool) (l : list ascii) (c : ascii) :
  In c (collapse_ws b l) -> is_ws c = true -> c = " "%char.
Proof.
  revert b. induction l as [|x l IH]; intros b; simpl; [tauto|].
  destruct (is_ws x) eqn:Ex; [destruct b|]; simpl.
  - apply IH.
  - intros [<-|H]; [reflexivity | apply (IH _ H)].
  - intros [<-|H] Hc; [congruence | apply (IH _ H Hc)].
Qed.

Lemma collapse_ws_true_head (l : list ascii) (c : ascii) (r : list ascii) :
  collapse_ws true l = c :: r -> is_ws c = false.
Proof.
  induction l as [|x l IH]; simpl; [discriminate|].
  destruct (is_ws x) eqn:Ex; [exact IH | intros [= <- _]; exact Ex].
Qed.

Lemma collapse_ws_no_double (b : bool) (l p : list ascii) (c1 c2 : ascii) (r : list ascii) :
  collapse_ws b l = p ++ c1 :: c2 :: r -> is_ws c1 = true -> is_ws c2 = false.
Proof.
  revert b p. induction l as [|x l IH]; intros b p; simpl.
  { destruct p; discriminate. }
  destruct (is_ws x) eqn:Ex; [destruct b|].
  - apply IH.
  - destruct p as [|y p]; simpl.
    + intros [= <- H] _. exact (collapse_ws_true_head l c2 r H).
    + intros [= _ H]. exact (IH true p H).
  - destruct p as [|y p]; simpl.
    + intros [= <- _]. congruence.
    + intros [= _ H]. exact (IH false p H).
Qed.

Lemma collapse_ws_snoc (b : bool) (l : list ascii) (c : ascii) :
  is_ws c = false -> collapse_ws b (l ++ [c]) = collapse_ws b l ++ [c].
Proof.
  intros Hc. revert b. induction l as [|x l IH]; intros b; simpl.
  - rewrite Hc. reflexivity.
  - destruct (is_ws x); [destruct b|]; rewrite ?IH; reflexivity.
Qed.


Lemma is_ws_newline_to_space (c : ascii) : is_ws (newline_to_space c) = is_ws c.
Proof. destruct c as [[] [] [] [] [] [] [] []]; reflexivity. Qed.

Lemma newline_to_space_id (c : ascii) : is_ws c = false -> newline_to_space c = c.
Proof. destruct c as [[] [] [] [] [] [] [] []]; vm_compute; congruence. Qed.

Lemma normalize_list (l : list ascii) :
  let o := collapse_ws false (replace_newlines (trim l)) in
  (forall c, In c o -> is_ws c = true -> c = " "%char) /\
  (forall p c1 c2 r, o = p ++ c1 :: c2 :: r -> is_ws c1 = true -> is_ws c2 = false) /\
  (forall c r, o = c :: r -> is_ws c = false) /\
  (forall c r, o = r ++ [c] -> is_ws c = false).
Proof.
  intros o. destruct (trim_ends l) as [Hh Hl].
  split; [|split; [|split]].
  - intros c. apply collapse_ws_spaces.
  - intros p c1 c2 r. apply collapse_ws_no_double.
  - intros c r. subst o. change (replace_newlines (trim l)) with (List.map newline_to_space (trim l)).
    destruct (trim l) as [|x t] eqn:E; [discriminate|].
    pose proof (Hh x t eq_refl) as Hx. cbn [List.map].
    rewrite (newline_to_space_id x Hx). simpl. rewrite Hx.
    intros [= <- _]. exact Hx.
  - intros c r. subst o. change (replace_newlines (trim l)) with (List.map newline_to_space (trim l)).
    destruct (trim l) as [|x t] eqn:E using rev_ind.
    + simpl. destruct r; discriminate.
    + pose proof (Hl x t eq_refl) as Hx.
      rewrite map_app. cbn [List.map].
      rewrite (newline_to_space_id x Hx), (collapse_ws_snoc _ _ _ Hx).
      intros H. apply app_inj_tail in H as [_ <-]. exact Hx.
Qed.

End OCRFacts.

Lemma clean_in_space (t : string) (c : ascii) :
  (forall x, In x (list_ascii_of_string t) -> is_ws x = true -> x = " "%char) ->
  In c (List.map OCR.to_upper (OCR.trim (OCR.strip_artifacts (list_ascii_of_string t)))) ->
  is_ws c = true -> c = " "%char.
Proof.
  intros Ht Hc Hw. apply in_map_iff in Hc as [x [<- Hx]].
  apply trim_incl in Hx. apply filter_In in Hx as [Hx _].
  rewrite is_ws_to_upper in Hw. rewrite (Ht x Hx Hw). reflexivity.
Qed.

(** The white space of [normalize_text]'s result is all spaces. *)
Lemma normalize_text_spaces (t : string) (c : ascii) :
  In c (list_ascii_of_string (OCR.normalize_text t)) -> is_ws c = true -> c = " "%char.
Proof.
  unfold OCR.normalize_text. rewrite list_ascii_of_string_of_list_ascii.
  apply (normalize_list (list_ascii_of_string t)).
Qed.

(** X1: [cleanSubtitle] and [cleanFooterCode] return only A-Z, 0-9, "_", "-" and white space, with no white space at either end. *)
Theorem cleanSubtitle_cleanFooterCode_charset (text : string) :
  List.Forall (fun c => clean_char c = true) (list_ascii_of_string (OCR.cleanSubtitle text)) /\
  trimmed (list_ascii_of_string (OCR.cleanSubtitle text)) /\
  List.Forall (fun c => clean_char c = true) (list_ascii_of_string (OCR.cleanFooterCode text)) /\
  trimmed (list_ascii_of_string (OCR.cleanFooterCode text)).
Proof.
  unfold OCR.cleanSubtitle, OCR.cleanFooterCode, trimmed.
  rewrite list_ascii_of_string_of_list_ascii.
  destruct (clean_list (list_ascii_of_string text)) as [H1 [H2 H3]].
  tauto.
Qed.

(** X2: cleaning an already cleaned subtitle or footer code changes nothing. *)
Theorem cleanSubtitle_cleanFooterCode_idempotent (text : string) :
  OCR.cleanSubtitle (OCR.cleanSubtitle text) = OCR.cleanSubtitle text /\
  OCR.cleanFooterCode (OCR.cleanFooterCode text) = OCR.cleanFooterCode text.
Proof.
  unfold OCR.cleanSubtitle, OCR.cleanFooterCode.
  rewrite list_ascii_of_string_of_list_ascii, clean_list_idem. tauto.
Qed.

(** X3: the text [extractTextFromRegion] returns, read or not, has only spaces as white space, never two in a row, and none at either end. *)
Theorem extractTextFromRegion_normalized (OCRRegion : Type)
    (recognize : OCRRegion -> option string) (region : OCRRegion) :
  let o := list_ascii_of_string (OCR.extractTextFromRegion OCRRegion recognize region) in
  (forall c, In c o -> is_ws c = true -> c = " "%char) /\
  (forall p c1 c2 r, o = p ++ c1 :: c2 :: r -> is_ws c1 = true -> is_ws c2 = false) /\
  trimmed o.
Proof.
  intros o. subst o. unfold OCR.extractTextFromRegion, trimmed.
  destruct (recognize region) as [t|].
  - unfold OCR.normalize_text. rewrite list_ascii_of_string_of_list_ascii.
    destruct (normalize_list (list_ascii_of_string t)) as [H1 [H2 [H3 H4]]].
    tauto.
  - simpl. repeat split; intros *; try tauto; try discriminate.
    + destruct p; discriminate.
    + destruct r; discriminate.
Qed.

Lemma extractText_spaces (OCRRegion : Type) (recognize : OCRRegion -> option string)
    (region : OCRRegion) (c : ascii) :
  In c (list_ascii_of_string (OCR.extractTextFromRegion OCRRegion recognize region)) ->
  is_ws c = true -> c = " "%char.
Proof.
  unfold OCR.extractTextFromRegion. destruct (recognize region) as [t|].
  - apply normalize_text_spaces.
  - simpl. tauto.
Qed.

Lemma cleaned_field (OCRRegion : Type) (recognize : OCRRegion -> option string)
    (region : OCRRegion) :
  let o := List.map OCR.to_upper (OCR.trim (OCR.strip_artifacts (list_ascii_of_string
             (OCR.extractTextFromRegion OCRRegion recognize region)))) in
  List.Forall (fun c => clean_char c = true /\ (is_ws c = true -> c = " "%char)) o /\
  trimmed o.
Proof.
  intros o. destruct (clean_list (list_ascii_of_string
             (OCR.extractTextFromRegion OCRRegion recognize region))) as [H1 [H2 H3]].
  fold o in H1, H2, H3. split; [|split; assumption].
  apply List.Forall_forall. intros c Hc. split.
  - exact (proj1 (List.Forall_forall _ _) H1 c Hc).
  - apply (clean_in_space (OCR.extractTextFromRegion OCRRegion recognize region) c);
      [|exact Hc].
    apply extractText_spaces.
Qed.

(** X4: with auto-detection off both OCR fields are empty; otherwise each field holds only A-Z, 0-9, "_", "-" and spaces as the only white space, trimmed. *)
Theorem extractQRISFields_shape (OCRRegion : Type) (recognize : OCRRegion -> option string)
    (settings : OCR.OCRSettings OCRRegion) :
  let r := OCR.extractQRISFields OCRRegion recognize settings in
  (OCR.enableAutoDetect _ settings = false ->
     OCR.subtitle r = EmptyString /\ OCR.footerCode r = EmptyString) /\
  List.Forall (fun c => clean_char c = true /\ (is_ws c = true -> c = " "%char))
    (list_ascii_of_string (OCR.subtitle r)) /\
  trimmed (list_ascii_of_string (OCR.subtitle r)) /\
  List.Forall (fun c => clean_char c = true /\ (is_ws c = true -> c = " "%char))
    (list_ascii_of_string (OCR.footerCode r)) /\
  trimmed (list_ascii_of_string (OCR.footerCode r)).
Proof.
  intros r. subst r. unfold OCR.extractQRISFields.
  destruct (OCR.enableAutoDetect _ settings); simpl.
  - unfold OCR.cleanSubtitle, OCR.cleanFooterCode.
    rewrite !list_ascii_of_string_of_list_ascii.
    destruct (cleaned_field _ recognize (OCR.subtitleRegion _ settings)) as [A1 A2].
    destruct (cleaned_field _ recognize (OCR.footerCodeRegion _ settings)) as [B1 B2].
    split; [intros H; discriminate H | tauto].
  - unfold trimmed. repeat split; try constructor; intros *; try discriminate.
    + destruct r; discriminate.
    + destruct r; discriminate.
Qed.

(* ------------------------------------------------------------------ *)
(** ** The NMID pattern *)

Lemma take_digits_spec (k : nat) (l : list ascii) :
  exists post, l = take_digits k l ++ post /\
  List.Forall (fun c => is_digit c = true) (take_digits k l) /\
  (List.length (take_digits k l) <= k)%nat /\
  (List.length (take_digits k l) = k \/
   forall c r, post = c :: r -> is_digit c = false).
Proof.
  revert l. induction k as [|k IH]; intros l.
  - exists l. simpl. refine (conj eq_refl (conj (List.Forall_nil _) (conj (le_n 0) (or_introl eq_refl)))).
  - destruct l as [|c l].
    + exists []. simpl. refine (conj eq_refl (conj (List.Forall_nil _) (conj _ (or_intror _)))); [lia|].
      discriminate.
    + simpl. destruct (is_digit c) eqn:Ec.
      * destruct (IH l) as [post [Hl [Hd [Hk Hg]]]].
        exists post. simpl. refine (conj _ (conj _ (conj _ _))).
        -- rewrite Hl at 1. reflexivity.
        -- constructor; assumption.
        -- lia.
        -- destruct Hg; [left; lia | right; assumption].
      * exists (c :: l). simpl. refine (conj eq_refl (conj (List.Forall_nil _) (conj _ (or_intror _)))); [lia|].
        intros c' r [= <- _]. exact Ec.
Qed.

Lemma take_digits_min (k : nat) (ds r : list ascii) :
  List.Forall (fun c => is_digit c = true) ds ->
  (Nat.min (List.length ds) k <= List.length (take_digits k (ds ++ r)))%nat.
Proof.
  intros Hd. revert k. induction Hd as [|d ds Hd Hds IH]; intros k; simpl; [lia|].
  destruct k as [|k]; simpl; [lia|]. rewrite Hd. simpl. specialize (IH k). lia.
Qed.

(** At a position holding "ID" and eight or more digits, the pattern
    matches. *)
Lemma match_nmid_head (ds r : list ascii) :
  List.Forall (fun c => is_digit c = true) ds -> (8 <= List.length ds)%nat ->
  exists m, match_nmid ("I"%char :: "D"%char :: ds ++ r) = Some m.
Proof.
  intros Hd Hl. cbn [match_nmid].
  replace (Ascii.eqb "I" "I" && Ascii.eqb "D" "D") with true by reflexivity.
  pose proof (take_digits_min 15 ds r Hd) as Hm.
  destruct (Nat.leb_spec 8 (List.length (take_digits 15 (ds ++ r)))); [eauto | lia].
Qed.

Lemma match_nmid_sound (l : list ascii) (m : string) :
  match_nmid l = Some m ->
  exists pre ds post,
    l = pre ++ "I"%char :: "D"%char :: ds ++ post /\
    m = String "I" (String "D" (string_of_list_ascii ds)) /\
    (8 <= List.length ds <= 15)%nat /\
    List.Forall (fun c => is_digit c = true) ds /\
    (List.length ds = 15%nat \/ forall c r, post = c :: r -> is_digit c = false) /\
    (forall p ds' r, l = p ++ "I"%char :: "D"%char :: ds' ++ r ->
       List.Forall (fun c => is_digit c = true) ds' -> (8 <= List.length ds')%nat ->
       (List.length pre <= List.length p)%nat).
Proof.
  induction l as [|c0 l IH]; [discriminate|].
  cbn [match_nmid].
  set (ds := match l with
             | [] => []
             | c1 :: r' => if Ascii.eqb c0 "I" && Ascii.eqb c1 "D" then take_digits 15 r' else []
             end).
  destruct (Nat.leb_spec 8 (List.length ds)) as [Hds|Hds].
  - intros [= <-].
    destruct l as [|c1 r']; [simpl in Hds; lia|].
    subst ds. destruct (Ascii.eqb c0 "I" && Ascii.eqb c1 "D") eqn:E; [|simpl in Hds; lia].
    apply andb_prop in E as [E0 E1].
    apply Ascii.eqb_eq in E0, E1. subst c0 c1.
    change (8 <= List.length (take_digits 15 r'))%nat in Hds.
    destruct (take_digits_spec 15 r') as [post [Hr [Hd [Hk Hg]]]].
    exists [], (take_digits 15 r'), post. cbn [app].
    refine (conj _ (conj eq_refl (conj _ (conj Hd (conj Hg _))))).
    + rewrite Hr at 1. reflexivity.
    + lia.
    + intros; simpl; lia.
  - intros Hm. destruct (IH Hm) as [pre [ds' [post [Hl [Hm' [Hb [Hd [Hg Hleft]]]]]]]].
    exists (c0 :: pre), ds', post.
    refine (conj _ (conj Hm' (conj Hb (conj Hd (conj Hg _))))); [rewrite Hl; reflexivity|].
    intros p ds'' r Hp Hd'' H8. destruct p as [|p0 p].
    + exfalso. cbn [app] in Hp. injection Hp as -> Hp. subst ds. rewrite Hp in Hds.
      change (List.length (take_digits 15 (ds'' ++ r)) < 8)%nat in Hds.
      pose proof (take_digits_min 15 ds'' r Hd''). lia.
    + simpl. injection Hp as _ Hp.
      specialize (Hleft p ds'' r Hp Hd'' H8). lia.
Qed.

(** X6: [/ID[0-9]{8,15}/] finds nothing exactly when every "ID" in the payload is followed by fewer than 8 digits. *)
Lemma match_nmid_none (l : list ascii) :
  match_nmid l = None <->
  (forall p ds r, l = p ++ "I"%char :: "D"%char :: ds ++ r ->
     List.Forall (fun c => is_digit c = true) ds -> (List.length ds < 8)%nat).
Proof.
  split.
  - intros Hn p ds r Hl Hd. destruct (Nat.ltb_spec (List.length ds) 8) as [|H8]; [assumption|].
    exfalso. revert l Hn Hl. induction p as [|c p IH]; intros l Hn Hl.
    + subst l. cbn [app] in Hn.
      destruct (match_nmid_head ds r Hd H8) as [m Hm]. congruence.
    + subst l. cbn [match_nmid app] in Hn.
      destruct (Nat.leb _ _) in Hn; [discriminate|].
      exact (IH _ Hn eq_refl).
  - intros H. destruct (match_nmid l) as [m|] eqn:Hm; [|reflexivity].
    destruct (match_nmid_sound l m Hm) as [pre [ds [post [Hl [_ [Hb [Hd _]]]]]]].
    specialize (H pre ds post Hl Hd). lia.
Qed.

(* ------------------------------------------------------------------ *)
(** ** More on the TLV loop *)

Lemma length_string_of_list_ascii (l : list ascii) :
  String.length (string_of_list_ascii l) = List.length l.
Proof. rewrite <- length_list_ascii_of_string, list_ascii_of_string_of_list_ascii. reflexivity. Qed.

Lemma substr_length (s : string) (st len : Z) :
  0 <= st ->
  Z.of_nat (String.length (substr s st len)) =
  Z.max 0 (Z.min (st + Z.max len 0) (Z.of_nat (String.length s)) - st).
Proof.
  intros Hst. unfold substr.
  rewrite length_string_of_list_ascii, length_firstn, length_skipn,
    length_list_ascii_of_string.
  destruct (Z.ltb_spec st 0); [lia|]. lia.
Qed.

(** [substr] from an offset to past the end returns the rest. *)
Lemma substr_tail (s : string) (a b : list ascii) (len : Z) :
  list_ascii_of_string s = a ++ b -> Z.of_nat (List.length b) <= len ->
  substr s (Z.of_nat (List.length a)) len = string_of_list_ascii b.
Proof.
  intros H Hl. unfold substr. rewrite H, !length_app.
  destruct (Z.ltb_spec (Z.of_nat (List.length a)) 0); [lia|].
  replace (Z.to_nat (Z.min (Z.min (Z.of_nat (List.length a)) (Z.of_nat (List.length a + List.length b)) +
                             Z.min (Z.max len 0) (Z.of_nat (List.length a + List.length b)))
                           (Z.of_nat (List.length a + List.length b)) -
                    Z.min (Z.of_nat (List.length a)) (Z.of_nat (List.length a + List.length b))))
    with (List.length b) by lia.
  replace (Z.to_nat (Z.min (Z.of_nat (List.length a)) (Z.of_nat (List.length a + List.length b))))
    with (List.length a) by lia.
  rewrite drop_app_length, take_ge by lia. reflexivity.
Qed.

Lemma parseInt_empty : parseInt "" (Some 10) = NaN.
Proof. reflexivity. Qed.

(** Every tag the loop adds is read from a full two-character window. *)
Lemma tlv_loop_keys (n : nat) (s : string) (i : Z) (m m' : gmap string string) :
  ~ In "-"%char (list_ascii_of_string s) -> 0 <= i ->
  (forall k v, m !! k = Some v -> String.length k = 2%nat) ->
  tlv_loop n s i m = Some m' ->
  forall k v, m' !! k = Some v -> String.length k = 2%nat.
Proof.
  revert i m. induction n as [|n IH]; intros i m Hs Hi Hm H; [discriminate|].
  simpl in H. destruct (Z.ltb_spec i (Z.of_nat (String.length s)));
    [|injection H as <-; exact Hm].
  unfold tlv_step in H.
  destruct (parseInt (substr s (i + 2) 2) (Some 10)) as [|neg k] eqn:Ep;
    [injection H as <-; exact Hm|].
  cbn [isNaN negb] in H.
  destruct (parseInt_no_minus _ _ _
              (fun Hin => Hs (in_substr _ _ _ _ Hin)) Ep) as [-> Hk].
  cbn [to_Z] in H.
  assert (Hne : substr s (i + 2) 2 <> ""%string)
    by (intros E; rewrite E, parseInt_empty in Ep; discriminate).
  assert (Hl2 : 0 < Z.of_nat (String.length (substr s (i + 2) 2))).
  { destruct (substr s (i + 2) 2); [congruence|simpl; lia]. }
  rewrite substr_length in Hl2 by lia.
  assert (Hkey : String.length (substr s i 2) = 2%nat).
  { enough (Z.of_nat (String.length (substr s i 2)) = 2) by lia.
    rewrite substr_length by lia. lia. }
  refine (IH (i + 4 + k) _ Hs _ _ H); [lia |].
  intros k' v' Hk'. apply lookup_insert_Some in Hk'.
  destruct Hk' as [[<- _] | [_ Hk']]; [exact Hkey | exact (Hm _ _ Hk')].
Qed.

(** [tlv_loop_encode] with anything after the encoded blocks. *)
Lemma tlv_loop_encode_app (l : list (string * string)) :
  Forall wf_entry l ->
  forall (f : nat) (s : string) (P Q : list ascii) (m : gmap string string),
  list_ascii_of_string s = P ++ list_ascii_of_string (encode l) ++ Q ->
  tlv_loop (List.length l + f) s (Z.of_nat (List.length P)) m
  = tlv_loop f s (Z.of_nat (List.length P + String.length (encode l)))
             (List.fold_left insert_entry l m).
Proof.
  induction 1 as [|[t v] l [Ht Hv] Hwf IH]; intros f s P Q m Hs.
  - simpl. rewrite Nat.add_0_r. reflexivity.
  - simpl in Ht, Hv. cbn [List.length Nat.add tlv_loop].
    set (d := two_digits (String.length v)) in *.
    assert (Hd : List.length (list_ascii_of_string d) = 2%nat)
      by (rewrite length_list_ascii_of_string; apply length_two_digits).
    assert (Ht' : List.length (list_ascii_of_string t) = 2%nat)
      by (rewrite length_list_ascii_of_string; exact Ht).
    rewrite <- (length_list_ascii_of_string v) in Hv.
    rewrite encode_cons in Hs |- *. unfold encode_entry in Hs |- *. cbn [fst snd] in Hs |- *.
    rewrite !list_ascii_of_string_app in Hs.
    fold d in Hs |- *.
    rewrite <- (length_list_ascii_of_string ((t ++ d ++ v) ++ encode l)),
      !list_ascii_of_string_app, !length_app.
    set (T := list_ascii_of_string t) in *.
    set (D := list_ascii_of_string d) in *.
    set (V := list_ascii_of_string v) in *.
    set (R := list_ascii_of_string (encode l)) in *.
    rewrite <- !app_assoc in Hs.
    assert (Hlen : (Z.of_nat (List.length P) <? Z.of_nat (String.length s)) = true).
    { apply Z.ltb_lt. rewrite <- length_list_ascii_of_string, Hs, !length_app. lia. }
    rewrite Hlen. unfold tlv_step.
    assert (Hid : substr s (Z.of_nat (List.length P)) 2 = t).
    { replace 2 with (Z.of_nat (List.length T)) by (rewrite Ht'; reflexivity).
      rewrite (substr_mid s P T (D ++ V ++ R ++ Q)) by exact Hs.
      apply string_of_list_ascii_of_string. }
    assert (Hls : substr s (Z.of_nat (List.length P) + 2) 2 = d).
    { replace (Z.of_nat (List.length P) + 2) with (Z.of_nat (List.length (P ++ T)))
        by (rewrite length_app; lia).
      replace 2 with (Z.of_nat (List.length D)) by (rewrite Hd; reflexivity).
      rewrite (substr_mid s (P ++ T) D (V ++ R ++ Q))
        by (rewrite Hs, <- !app_assoc; reflexivity).
      apply string_of_list_ascii_of_string. }
    rewrite Hid, Hls.
    subst d. rewrite parseInt_two_digits by (rewrite <- length_list_ascii_of_string; exact Hv).
    cbn [isNaN to_Z negb].
    rewrite <- length_list_ascii_of_string.
    fold V.
    assert (Hv' : substr s (Z.of_nat (List.length P) + 4) (Z.of_nat (List.length V)) = v).
    { replace (Z.of_nat (List.length P) + 4) with (Z.of_nat (List.length (P ++ T ++ D)))
        by (rewrite !length_app; lia).
      rewrite (substr_mid s (P ++ T ++ D) V (R ++ Q))
        by (rewrite Hs, <- !app_assoc; reflexivity).
      apply string_of_list_ascii_of_string. }
    rewrite Hv'.
    replace (Z.of_nat (List.length P) + 4 + Z.of_nat (List.length V))
      with (Z.of_nat (List.length (P ++ T ++ D ++ V))) by (rewrite !length_app; lia).
    rewrite (IH f s (P ++ T ++ D ++ V) Q) by (rewrite Hs, <- !app_assoc; reflexivity).
    rewrite <- (length_list_ascii_of_string (encode l)). fold R.
    rewrite !length_app, Ht', Hd.
    f_equal. lia.
Qed.

(** X7: on a payload without "-", every tag the TLV loop records is exactly two characters long. *)
Theorem parseSubTags_tag_length (fuel : nat) (s : string) (m : gmap string string) :
  ~ In "-"%char (list_ascii_of_string s) ->
  parseSubTags fuel s = Some m ->
  forall k v, m !! k = Some v -> String.length k = 2%nat.
Proof.
  intros Hs H. refine (tlv_loop_keys fuel s 0 ∅ m Hs _ _ H); [lia|].
  intros k v Hk. rewrite lookup_empty in Hk. discriminate.
Qed.

(** X8: when the last block's value is shorter than its length field says, the loop stores the truncated rest under its tag and stops. *)
Theorem parseSubTags_truncated_value (l : list (string * string)) (t v : string)
    (n fuel : nat) :
  Forall wf_entry l -> String.length t = 2%nat -> (n < 100)%nat ->
  (String.length v < n)%nat -> (S (S (List.length l)) <= fuel)%nat ->
  parseSubTags fuel (encode l ++ t ++ two_digits n ++ v)
  = Some (<[t := v]> (induced l)).
Proof.
  intros Hwf Ht Hn Hv Hf. unfold parseSubTags, induced.
  set (s := (encode l ++ t ++ two_digits n ++ v)%string).
  set (E := list_ascii_of_string (encode l)).
  set (T := list_ascii_of_string t).
  set (D := list_ascii_of_string (two_digits n)).
  set (V := list_ascii_of_string v).
  assert (Hs : list_ascii_of_string s = [] ++ E ++ (T ++ D ++ V))
    by (unfold s; rewrite !list_ascii_of_string_app; reflexivity).
  replace fuel with (List.length l + (fuel - List.length l))%nat by lia.
  change 0 with (Z.of_nat (List.length (@nil ascii))).
  rewrite (tlv_loop_encode_app l Hwf _ s [] _ ∅ Hs).
  destruct (fuel - List.length l)%nat as [|f] eqn:Ef; [lia|].
  assert (HT : List.length T = 2%nat) by (unfold T; rewrite length_list_ascii_of_string; exact Ht).
  assert (HD : List.length D = 2%nat)
    by (unfold D; rewrite length_list_ascii_of_string; apply length_two_digits).
  assert (HV : (List.length V < n)%nat) by (unfold V; rewrite length_list_ascii_of_string; exact Hv).
  assert (Hsz : String.length s = (List.length E + 2 + 2 + List.length V)%nat)
    by (rewrite <- length_list_ascii_of_string, Hs, !length_app; simpl; lia).
  rewrite <- (length_list_ascii_of_string (encode l)). fold E. simpl (List.length []).
  cbn [tlv_loop Nat.add]. rewrite Hsz.
  replace (Z.of_nat (List.length E) <? Z.of_nat (List.length E + 2 + 2 + List.length V)) with true
    by (symmetry; apply Z.ltb_lt; lia).
  unfold tlv_step.
  assert (Hid : substr s (Z.of_nat (List.length E)) 2 = t).
  { replace 2 with (Z.of_nat (List.length T)) by (rewrite HT; reflexivity).
    rewrite (substr_mid s E T (D ++ V)) by exact Hs.
    apply string_of_list_ascii_of_string. }
  assert (Hls : substr s (Z.of_nat (List.length E) + 2) 2 = two_digits n).
  { replace (Z.of_nat (List.length E) + 2) with (Z.of_nat (List.length (E ++ T)))
      by (rewrite length_app; lia).
    replace 2 with (Z.of_nat (List.length D)) by (rewrite HD; reflexivity).
    rewrite (substr_mid s (E ++ T) D V) by (rewrite Hs, <- !app_assoc; reflexivity).
    apply string_of_list_ascii_of_string. }
  rewrite Hid, Hls, parseInt_two_digits by exact Hn.
  cbn [isNaN to_Z negb].
  assert (Hval : substr s (Z.of_nat (List.length E) + 4) (Z.of_nat n) = v).
  { replace (Z.of_nat (List.length E) + 4) with (Z.of_nat (List.length (E ++ T ++ D)))
      by (rewrite !length_app; lia).
    rewrite (substr_tail s (E ++ T ++ D) V); [| rewrite Hs, <- !app_assoc; reflexivity | lia].
    apply string_of_list_ascii_of_string. }
  rewrite Hval.
  destruct f as [|f]; [lia|]. cbn [tlv_loop]. rewrite Hsz.
  replace (Z.of_nat (List.length E) + 4 + Z.of_nat n <? Z.of_nat (List.length E + 2 + 2 + List.length V))
    with false by (symmetry; apply Z.ltb_ge; lia).
  reflexivity.
Qed.

Lemma startsWith_app (pre s : string) : startsWith (pre ++ s) pre = true.
Proof.
  unfold startsWith. induction pre as [|c pre IH]; simpl; [destruct s; reflexivity|].
  destruct (ascii_dec c c); [exact IH | congruence].
Qed.

Lemma prefix_ID (s : string) : startsWith ("ID" ++ s) "ID" = true.
Proof. apply (startsWith_app "ID"). Qed.

Lemma parseQRIS_output_shape_aux (fuel : nat) (p : string) (d : QRISData) :
  parseQRIS fuel p = Some d ->
  raw d = Some p /\
  (forall x, merchantName d = Some x -> x <> EmptyString) /\
  (forall x, amount d = Some x -> startsWith x "Rp. " = true) /\
  (forall x, nmid d = Some x -> x <> EmptyString).
Proof.
  intros H. unfold parseQRIS in H. cbv [mbind option_bind] in H.
  destruct (tlv_loop fuel p 0 ∅) as [tags|] eqn:Et; [|discriminate].
  pose proof (extractFields_fields _ _ _ _ H) as [Hm Ha].
  pose proof (extractFields_nmid _ _ _ _ H) as Hn.
  refine (conj _ (conj _ (conj _ _))).
  - unfold extractFields in H. cbv [mbind option_bind] in H.
    destruct (nmid_step1 fuel tags) as [n1|]; [|discriminate].
    destruct (nmid_step2 fuel tags n1) as [n2|]; [|discriminate].
    injection H as <-. reflexivity.
  - intros x Hx. rewrite Hx in Hm.
    destruct (tags !! "59") as [[|c v]|]; simpl in Hm; congruence.
  - intros x Hx. rewrite Hx in Ha.
    destruct (tags !! "54") as [[|c v]|]; simpl in Ha; try discriminate.
    injection Ha as ->. apply startsWith_app.
  - intros x Hx ->. rewrite Hx in Hn. unfold nmid_chain_spec in Hn.
    cbv [mbind option_bind] in Hn.
    pose proof (spec_step_a_not_empty fuel tags) as Ha'.
    pose proof (spec_step_b_not_empty fuel tags) as Hb'.
    destruct (spec_step_a fuel tags) as [[a|]|]; [congruence | | discriminate].
    destruct (spec_step_b fuel tags) as [[b|]|]; [congruence | | discriminate].
    injection Hn as Hn. exact (match_nmid_not_empty _ Hn).
Qed.

(** X9: [parseQRIS] always sets raw to the payload, and the merchant name and nmid it sets are never empty, and the amount it sets always starts with "Rp. ". *)
Theorem parseQRIS_output_shape (fuel : nat) (p : string) (d : QRISData) :
  parseQRIS fuel p = Some d ->
  raw d = Some p /\
  (forall x, merchantName d = Some x -> x <> EmptyString) /\
  (forall x, amount d = Some x -> startsWith x "Rp. " = true) /\
  (forall x, nmid d = Some x -> x <> EmptyString).
Proof. exact (parseQRIS_output_shape_aux fuel p d). Qed.

(** X10: when tag 51 yields no nmid, any nmid [parseQRIS] sets starts with "ID". *)
Theorem parseQRIS_nmid_ID_prefix (fuel : nat) (p : string) (tags : gmap string string)
    (d : QRISData) (x : string) :
  tlv_loop fuel p 0 ∅ = Some tags -> nmid_step1 fuel tags = Some None ->
  parseQRIS fuel p = Some d -> nmid d = Some x -> startsWith x "ID" = true.
Proof.
  intros Ht H1 Hp Hx.
  pose proof (extractFields_nmid _ _ _ _ (parseQRIS_extract _ _ _ _ Ht Hp)) as Hn.
  rewrite Hx in Hn. unfold nmid_chain_spec in Hn. cbv [mbind option_bind] in Hn.
  rewrite <- nmid_step1_spec, H1 in Hn.
  unfold spec_step_b in Hn. cbv [mbind option_bind] in Hn.
  destruct (present (tags !! "62")) as [v|].
  - destruct (parseSubTags fuel v) as [sub|]; [|discriminate].
    destruct (sub !! "07") as [y|].
    + destruct (startsWith y "ID") eqn:Ey; [injection Hn as <-; exact Ey|].
      injection Hn as Hn. destruct (match_nmid_sound _ _ Hn) as (pre & ds & post & _ & -> & _).
      apply prefix_ID.
    + injection Hn as Hn. destruct (match_nmid_sound _ _ Hn) as (pre & ds & post & _ & -> & _).
      apply prefix_ID.
  - injection Hn as Hn. destruct (match_nmid_sound _ _ Hn) as (pre & ds & post & _ & -> & _).
    apply prefix_ID.
Qed.

(* ------------------------------------------------------------------ *)
(** ** The bulk upload path of the app *)

Section AppFacts.

(** The [nmid] field of [QRISData], before [App]'s [nmid] shadows it. *)
Local Abbreviation parsed_nmid := nmid (only parsing).

Import App.

Variable OCRRegion : Type.
Variable recognize : OCRRegion -> option string.
Variables (defaultSubtitle defaultFooterCode : string) (enableAutoDetect : bool)
  (subtitleRegion footerCodeRegion : OCRRegion).

Local Abbreviation processImage' := (processImage OCRRegion recognize defaultSubtitle
  defaultFooterCode enableAutoDetect subtitleRegion footerCodeRegion).
Local Abbreviation handleBulkUpload' := (handleBulkUpload OCRRegion recognize defaultSubtitle
  defaultFooterCode enableAutoDetect subtitleRegion footerCodeRegion).


Lemma or_default_not_empty (v : option string) (d : string) :
  d <> EmptyString -> or_default v d <> EmptyString.
Proof. destruct v as [[|c s]|]; simpl; congruence. Qed.

Lemma or_default_prefix (v : option string) (d : string) (pre : string) :
  startsWith d pre = true ->
  (forall x, v = Some x -> startsWith x pre = true) ->
  startsWith (or_default v d) pre = true.
Proof. intros Hd Hv. destruct v as [[|c s]|]; cbn; [exact Hd | exact (Hv _ eq_refl) | exact Hd]. Qed.

Lemma processImage_failed_entries_aux (fuel : nat) (i name : string) (o : load_outcome)
    (e : BulkEntry) :
  processImage' fuel i name o = Some e ->
  id (qrdata e) = i /\ fileName e = name /\
  (status e = Failed <-> decoded o = false) /\
  (status e = Failed ->
     errorMessage e <> None /\
     title (qrdata e) = "" /\ subtitle (qrdata e) = "" /\ nmid (qrdata e) = "" /\
     qrContent (qrdata e) = "" /\ footerCode (qrdata e) = "" /\ nominal (qrdata e) = "")%string /\
  (status e = Success -> errorMessage e = None).
Proof.
  unfold processImage', processImage.
  destruct o as [| | |[code|]];
    try (intros [= <-]; simpl; repeat split; try discriminate; tauto).
  cbv [mbind option_bind]. destruct (parseQRIS fuel code) as [[m n a r]|]; [|discriminate].
  destruct (if enableAutoDetect then _ else _) as [s f].
  intros [= <-]. simpl. repeat split; try discriminate; tauto.
Qed.

(** X12: [processImage] keeps the entry id and file name; it marks an entry failed exactly when no code was decoded, a failed entry has an error message and empty text fields, and a success entry has none. *)
Theorem processImage_failed_entries (fuel : nat) (i name : string) (o : load_outcome)
    (e : BulkEntry) :
  processImage' fuel i name o = Some e ->
  id (qrdata e) = i /\ fileName e = name /\
  (status e = Failed <-> decoded o = false) /\
  (status e = Failed ->
     errorMessage e <> None /\
     title (qrdata e) = "" /\ subtitle (qrdata e) = "" /\ nmid (qrdata e) = "" /\
     qrContent (qrdata e) = "" /\ footerCode (qrdata e) = "" /\ nominal (qrdata e) = "")%string /\
  (status e = Success -> errorMessage e = None).
Proof. exact (processImage_failed_entries_aux fuel i name o e). Qed.

Lemma processImage_success_entry_aux (fuel : nat) (i name code : string) (e : BulkEntry) :
  processImage' fuel i name (Decoded (Some code)) = Some e ->
  exists d, parseQRIS fuel code = Some d /\
    status e = Success /\ errorMessage e = None /\ qrContent (qrdata e) = code /\
    title (qrdata e) = or_default (merchantName d) "RETRIBUSI PARKIR" /\
    title (qrdata e) <> EmptyString /\
    nmid (qrdata e) = or_default (parsed_nmid d) "" /\
    nominal (qrdata e) = or_default (amount d) "Rp. " /\
    startsWith (nominal (qrdata e)) "Rp. " = true.
Proof.
  unfold processImage', processImage. cbv [mbind option_bind].
  destruct (parseQRIS fuel code) as [d|] eqn:Ep; [|discriminate].
  destruct (parseQRIS_output_shape_aux fuel code d Ep) as (_ & _ & Ha & _).
  destruct d as [m n a r].
  destruct (if enableAutoDetect then _ else _) as [s f].
  intros [= <-]. exists (Build_QRISData m n a r).
  cbn. repeat split; try reflexivity.
  - apply or_default_not_empty. discriminate.
  - apply or_default_prefix; [reflexivity | exact Ha].
Qed.

(** X13: when [processImage] resolves on a decoded code (it may not: [parseQRIS] loops forever on a code such as "00-4"), it resolves with a success entry carrying the code, the parsed title (default "RETRIBUSI PARKIR", never empty), nmid and nominal, the nominal always starting with "Rp. ". *)
Theorem processImage_success_entry (fuel : nat) (i name code : string) (e : BulkEntry) :
  processImage' fuel i name (Decoded (Some code)) = Some e ->
  exists d, parseQRIS fuel code = Some d /\
    status e = Success /\ errorMessage e = None /\ qrContent (qrdata e) = code /\
    title (qrdata e) = or_default (merchantName d) "RETRIBUSI PARKIR" /\
    title (qrdata e) <> EmptyString /\
    nmid (qrdata e) = or_default (parsed_nmid d) "" /\
    nominal (qrdata e) = or_default (amount d) "Rp. " /\
    startsWith (nominal (qrdata e)) "Rp. " = true.
Proof. exact (processImage_success_entry_aux fuel i name code e). Qed.

(** Where the subtitle and footer code of a success entry come from. *)
(** X14: when [processImage] resolves on a decoded code, its success entry's subtitle and footer code are the defaults, or, with auto-detection on, non-empty cleaned OCR text (A-Z, 0-9, "_", "-" and spaces as the only white space, trimmed). *)
Theorem processImage_subtitle_footer (fuel : nat) (i name code : string) (e : BulkEntry) :
  processImage' fuel i name (Decoded (Some code)) = Some e ->
  (enableAutoDetect = false ->
     subtitle (qrdata e) = defaultSubtitle /\ footerCode (qrdata e) = defaultFooterCode) /\
  (subtitle (qrdata e) = defaultSubtitle \/
     (subtitle (qrdata e) <> EmptyString /\
      List.Forall (fun c => clean_char c = true /\ (is_ws c = true -> c = " "%char))
        (list_ascii_of_string (subtitle (qrdata e))) /\
      trimmed (list_ascii_of_string (subtitle (qrdata e))))) /\
  (footerCode (qrdata e) = defaultFooterCode \/
     (footerCode (qrdata e) <> EmptyString /\
      List.Forall (fun c => clean_char c = true /\ (is_ws c = true -> c = " "%char))
        (list_ascii_of_string (footerCode (qrdata e))) /\
      trimmed (list_ascii_of_string (footerCode (qrdata e))))).
Proof.
  unfold processImage', processImage. cbv [mbind option_bind].
  destruct (parseQRIS fuel code) as [[m n a r]|]; [|discriminate].
  destruct enableAutoDetect eqn:Eauto.
  - intros [= <-]. cbn [qrdata subtitle footerCode].
    unfold OCR.extractQRISFields, getOCRSettings. cbn [OCR.enableAutoDetect
      OCR.subtitleRegion OCR.footerCodeRegion OCR.subtitle OCR.footerCode].
    unfold OCR.cleanSubtitle, OCR.cleanFooterCode.
    destruct (cleaned_field _ recognize subtitleRegion) as [A1 A2].
    destruct (cleaned_field _ recognize footerCodeRegion) as [B1 B2].
    split; [discriminate|].
    split.
    + destruct (string_of_list_ascii _) as [|c s] eqn:E; [left; reflexivity|].
      right. rewrite <- E, list_ascii_of_string_of_list_ascii. split; [congruence|]. tauto.
    + destruct (string_of_list_ascii (List.map OCR.to_upper (OCR.trim (OCR.strip_artifacts
        (list_ascii_of_string (OCR.extractTextFromRegion OCRRegion recognize footerCodeRegion))))))
        as [|c s] eqn:E; [left; reflexivity|].
      right. rewrite <- E, list_ascii_of_string_of_list_ascii. split; [congruence|]. tauto.
  - intros [= <-]. cbn. tauto.
Qed.

Lemma process_all_spec (fuel : nat) (files : list (string * string * load_outcome))
    (es : list BulkEntry) :
  process_all OCRRegion recognize defaultSubtitle defaultFooterCode enableAutoDetect
    subtitleRegion footerCodeRegion fuel files = Some es ->
  List.Forall2 (fun '(i, name, o) e => processImage' fuel i name o = Some e) files es.
Proof.
  revert es. induction files as [|[[i name] o] rest IH]; intros es H.
  - injection H as <-. constructor.
  - simpl in H. cbv [mbind option_bind] in H.
    destruct (processImage _ _ _ _ _ _ _ fuel i name o) as [e|] eqn:E1; [|discriminate].
    destruct (process_all _ _ _ _ _ _ _ fuel rest) as [es'|]; [|discriminate].
    injection H as <-. constructor; [exact E1 | apply IH; reflexivity].
Qed.

Lemma saved_rows (fuel : nat) (files : list (string * string * load_outcome))
    (es : list BulkEntry) :
  List.Forall2 (fun '(i, name, o) e => processImage' fuel i name o = Some e) files es ->
  List.map qrContent (List.map qrdata (List.filter is_success es)) = decoded_codes files /\
  List.Forall (fun q => title q <> EmptyString /\ startsWith (nominal q) "Rp. " = true)
    (List.map qrdata (List.filter is_success es)).
Proof.
  induction 1 as [|[[i name] o] e files es He Hrest [IH1 IH2]]; [split; [reflexivity | constructor]|].
  pose proof (processImage_failed_entries_aux fuel i name o e He) as (_ & _ & Hst & _ & _).
  destruct o as [| | |[code|]]; simpl;
    try (assert (Hf : status e = Failed) by (apply Hst; reflexivity);
         unfold is_success; rewrite Hf; split; assumption).
  destruct (processImage_success_entry_aux fuel i name code e He)
    as (d & _ & Hs & _ & Hq & _ & Ht & _ & _ & Hn).
  assert (Hsu : is_success e = true) by (unfold is_success; rewrite Hs; reflexivity).
  rewrite Hsu. simpl. rewrite Hq, IH1.
  split; [reflexivity | constructor; [split; assumption | exact IH2]].
Qed.

Lemma saved_names (fuel : nat) (files : list (string * string * load_outcome))
    (es : list BulkEntry) :
  List.Forall2 (fun '(i, name, o) e => processImage' fuel i name o = Some e) files es ->
  List.map fileName es = List.map (fun '(_, name, _) => name) files.
Proof.
  induction 1 as [|[[i name] o] e files es He Hrest IH]; [reflexivity|].
  pose proof (processImage_failed_entries_aux fuel i name o e He) as (_ & Hn & _).
  simpl. rewrite Hn, IH. reflexivity.
Qed.

(** X15: when [handleBulkUpload] completes (it may not: [parseQRIS] loops forever on a code such as "00-4"), with no file the bulk entries stay as they were; otherwise there is one entry per file, in order, and saving appends one row per decoded code, in order, each with a non-empty title and a "Rp. " nominal. *)
Theorem handleBulkUpload_then_save (fuel : nat) (files : list (string * string * load_outcome))
    (entries entries' : list BulkEntry) (data : list QRData) :
  handleBulkUpload' fuel files entries = Some entries' ->
  (files = [] -> entries' = entries) /\
  (files <> [] ->
     List.length entries' = List.length files /\
     List.map fileName entries' = List.map (fun '(_, name, _) => name) files /\
     exists rows, handleSaveAllBulk data entries' = data ++ rows /\
       List.map qrContent rows = decoded_codes files /\
       List.Forall (fun q => title q <> EmptyString /\ startsWith (nominal q) "Rp. " = true) rows).
Proof.
  unfold handleBulkUpload. intros H. split.
  - intros ->. injection H as <-. reflexivity.
  - intros Hne. destruct files as [|f rest]; [congruence|].
    apply process_all_spec in H.
    destruct (saved_rows _ _ _ H) as [H1 H2].
    refine (conj (eq_sym (Forall2_length _ _ _ H)) (conj (saved_names _ _ _ H) _)).
    exists (List.map qrdata (List.filter is_success entries')).
    split; [reflexivity | split; assumption].
Qed.

End AppFacts.

(* scanner *)
(** X11: when [scanQRCode] returns (rather than throws), a successful result carries a code and one of the listed strategy labels, and a failed one is exactly [{success: false, data: null, strategy: 'none'}]. *)
Theorem scanQRCode_result_shape (width height : Z) (has_context : attempt -> bool)
    (jsQR_on : attempt -> option string) (r : ScanResult) :
  fst (scan width height has_context jsQR_on) = Return r ->
  (success r = true -> In (strategy r) success_labels /\ exists d, data r = Some d) /\
  (success r = false -> r = {| success := false; data := None; strategy := "none" |}).
Proof.
  unfold scan, run, scanQRCode. cbv -[decode outcome_at success_labels].
  walk_cascade; intros H; try discriminate H; injection H as <-;
    (split; intros Hs;
     [ discriminate Hs || (split; [vm_compute; tauto | eexists; reflexivity])
     | discriminate Hs || reflexivity ]).
Qed.


(** X5: a match of [/ID[0-9]{8,15}/] is "ID" followed by 8 to 15 digits found in the payload, taking every digit up to 15, and no earlier "ID" in the payload is followed by 8 or more digits. *)
Theorem match_nmid_leftmost_greedy (l : list ascii) (m : string) :
  match_nmid l = Some m ->
  exists pre ds post,
    l = pre ++ "I"%char :: "D"%char :: ds ++ post /\
    m = String "I" (String "D" (string_of_list_ascii ds)) /\
    (8 <= List.length ds <= 15)%nat /\
    List.Forall (fun c => is_digit c = true) ds /\
    (List.length ds = 15%nat \/ forall c r, post = c :: r -> is_digit c = false) /\
    (forall p ds' r, l = p ++ "I"%char :: "D"%char :: ds' ++ r ->
       List.Forall (fun c => is_digit c = true) ds' -> (8 <= List.length ds')%nat ->
       (List.length pre <= List.length p)%nat).
Proof. exact (match_nmid_sound l m). Qed.

(* ------------------------------------------------------------------ *)
(** ** Instances of the further properties *)

Lemma scanQRCode_result_shape_witness :
  fst (scan 400 400 (fun _ => true) (only_at ADirect "P"))
    = Return {| success := true; data := Some "P"; strategy := "direct" |} /\
  In "direct"%string success_labels /\ exists d, Some "P"%string = Some d.
Proof.
  assert (H : fst (scan 400 400 (fun _ => true) (only_at ADirect "P"))
              = Return {| success := true; data := Some "P"; strategy := "direct" |})
    by (vm_compute; reflexivity).
  refine (conj H _).
  exact (proj1 (scanQRCode_result_shape 400 400 (fun _ => true) (only_at ADirect "P") _ H)
           eq_refl).
Defined.


Lemma parseSubTags_tag_length_witness :
  ~ In "-"%char (list_ascii_of_string "000201010211ABC") /\
  parseSubTags 10 "000201010211ABC" = Some (<["01" := "11"]> (<["00" := "01"]> ∅)) /\
  (forall k v, (<["01" := "11"]> (<["00" := "01"]> ∅) : gmap string string) !! k = Some v ->
     String.length k = 2%nat).
Proof.
  assert (H1 : ~ In "-"%char (list_ascii_of_string "000201010211ABC"))
    by (simpl; intuition discriminate).
  assert (H2 : parseSubTags 10 "000201010211ABC" = Some (<["01" := "11"]> (<["00" := "01"]> ∅)))
    by (vm_compute; reflexivity).
  exact (conj H1 (conj H2 (parseSubTags_tag_length 10 _ _ H1 H2))).
Defined.

Lemma parseSubTags_truncated_value_witness :
  Forall wf_entry [("00", "01")] /\ String.length "59" = 2%nat /\ (10 < 100)%nat /\
  (String.length "TOKO" < 10)%nat /\ (S (S (List.length [("00", "01")])) <= 3)%nat /\
  parseSubTags 3 (encode [("00", "01")] ++ "59" ++ two_digits 10 ++ "TOKO")%string
  = Some (<["59" := "TOKO"]> (induced [("00", "01")])).
Proof.
  assert (H1 : Forall wf_entry [("00", "01")])
    by (constructor; [split; simpl; lia | constructor]).
  assert (H2 : String.length "59" = 2%nat) by reflexivity.
  assert (H3 : (10 < 100)%nat) by lia.
  assert (H4 : (String.length "TOKO" < 10)%nat) by (simpl; lia).
  assert (H5 : (S (S (List.length [("00", "01")])) <= 3)%nat) by (simpl; lia).
  exact (conj H1 (conj H2 (conj H3 (conj H4 (conj H5
    (parseSubTags_truncated_value _ _ _ _ _ H1 H2 H3 H4 H5)))))).
Defined.

Lemma parseQRIS_output_shape_witness :
  let d := {| merchantName := Some "TOKO MAKMUR"; nmid := Some "ID1234567890";
              amount := Some "Rp. 150.000"; raw := Some sample_qris |} in
  parseQRIS 20 sample_qris = Some d /\
  raw d = Some sample_qris /\
  (forall x, merchantName d = Some x -> x <> EmptyString) /\
  (forall x, amount d = Some x -> startsWith x "Rp. " = true) /\
  (forall x, nmid d = Some x -> x <> EmptyString).
Proof.
  intros d. assert (H : parseQRIS 20 sample_qris = Some d) by (vm_compute; reflexivity).
  exact (conj H (parseQRIS_output_shape _ _ _ H)).
Defined.

Lemma parseQRIS_nmid_ID_prefix_witness :
  let tags := match tlv_loop 20 sample_qris62 0 ∅ with Some t => t | None => ∅ end in
  let d := {| merchantName := Some "TOKO"; nmid := Some "ID98765";
              amount := None; raw := Some sample_qris62 |} in
  tlv_loop 20 sample_qris62 0 ∅ = Some tags /\ nmid_step1 20 tags = Some None /\
  parseQRIS 20 sample_qris62 = Some d /\ nmid d = Some "ID98765" /\
  startsWith "ID98765" "ID" = true.
Proof.
  intros tags d.
  assert (H1 : tlv_loop 20 sample_qris62 0 ∅ = Some tags) by (vm_compute; reflexivity).
  assert (H2 : nmid_step1 20 tags = Some None) by (vm_compute; reflexivity).
  assert (H3 : parseQRIS 20 sample_qris62 = Some d) by (vm_compute; reflexivity).
  assert (H4 : nmid d = Some "ID98765") by reflexivity.
  exact (conj H1 (conj H2 (conj H3 (conj H4
    (parseQRIS_nmid_ID_prefix _ _ _ _ _ H1 H2 H3 H4))))).
Defined.

Lemma match_nmid_leftmost_greedy_witness :
  let l := list_ascii_of_string "xID1234567x ID1234567890123456789" in
  match_nmid l = Some "ID123456789012345" /\
  exists pre ds post,
    l = pre ++ "I"%char :: "D"%char :: ds ++ post /\
    "ID123456789012345" = String "I" (String "D" (string_of_list_ascii ds)) /\
    (8 <= List.length ds <= 15)%nat /\
    List.Forall (fun c => is_digit c = true) ds /\
    (List.length ds = 15%nat \/ forall c r, post = c :: r -> is_digit c = false) /\
    (forall p ds' r, l = p ++ "I"%char :: "D"%char :: ds' ++ r ->
       List.Forall (fun c => is_digit c = true) ds' -> (8 <= List.length ds')%nat ->
       (List.length pre <= List.length p)%nat).
Proof.
  intros l. assert (H : match_nmid l = Some "ID123456789012345") by (vm_compute; reflexivity).
  exact (conj H (match_nmid_leftmost_greedy _ _ H)).
Defined.

Lemma processImage_failed_entries_witness :
  let e := App.failed_entry "2" "b.png" "Gagal memuat gambar" in
  App.processImage nat sample_recognize "DEFAULT" "F-01" true O 1%nat 20 "2" "b.png"
    App.ImageError = Some e /\
  App.id (App.qrdata e) = "2" /\ App.fileName e = "b.png" /\
  (App.status e = App.Failed <-> decoded App.ImageError = false) /\
  (App.status e = App.Failed ->
     App.errorMessage e <> None /\
     App.title (App.qrdata e) = "" /\ App.subtitle (App.qrdata e) = "" /\
     App.nmid (App.qrdata e) = "" /\ App.qrContent (App.qrdata e) = "" /\
     App.footerCode (App.qrdata e) = "" /\ App.nominal (App.qrdata e) = "")%string /\
  (App.status e = App.Success -> App.errorMessage e = None).
Proof.
  intros e. assert (H : App.processImage nat sample_recognize "DEFAULT" "F-01" true O 1%nat 20 "2"
    "b.png" App.ImageError = Some e) by reflexivity.
  exact (conj H (processImage_failed_entries _ _ _ _ _ _ _ _ _ _ _ _ H)).
Defined.

Lemma processImage_success_entry_witness :
  App.processImage nat sample_recognize "DEFAULT" "F-01" true O 1%nat 20 "1" "a.png"
    (App.Decoded (Some sample_qris)) = Some sample_entry /\
  exists d, parseQRIS 20 sample_qris = Some d /\
    App.status sample_entry = App.Success /\ App.errorMessage sample_entry = None /\
    App.qrContent (App.qrdata sample_entry) = sample_qris /\
    App.title (App.qrdata sample_entry) = App.or_default (merchantName d) "RETRIBUSI PARKIR" /\
    App.title (App.qrdata sample_entry) <> EmptyString /\
    App.nmid (App.qrdata sample_entry) = App.or_default (nmid d) "" /\
    App.nominal (App.qrdata sample_entry) = App.or_default (amount d) "Rp. " /\
    startsWith (App.nominal (App.qrdata sample_entry)) "Rp. " = true.
Proof.
  assert (H : App.processImage nat sample_recognize "DEFAULT" "F-01" true O 1%nat 20 "1" "a.png"
    (App.Decoded (Some sample_qris)) = Some sample_entry) by (vm_compute; reflexivity).
  exact (conj H (processImage_success_entry _ _ _ _ _ _ _ _ _ _ _ _ H)).
Defined.

Lemma processImage_subtitle_footer_witness :
  let e := sample_entry in
  App.processImage nat sample_recognize "DEFAULT" "F-01" true O 1%nat 20 "1" "a.png"
    (App.Decoded (Some sample_qris)) = Some e /\
  (true = false ->
     App.subtitle (App.qrdata e) = "DEFAULT" /\ App.footerCode (App.qrdata e) = "F-01")%string /\
  (App.subtitle (App.qrdata e) = "DEFAULT"%string \/
     (App.subtitle (App.qrdata e) <> EmptyString /\
      List.Forall (fun c => clean_char c = true /\ (is_ws c = true -> c = " "%char))
        (list_ascii_of_string (App.subtitle (App.qrdata e))) /\
      trimmed (list_ascii_of_string (App.subtitle (App.qrdata e))))) /\
  (App.footerCode (App.qrdata e) = "F-01"%string \/
     (App.footerCode (App.qrdata e) <> EmptyString /\
      List.Forall (fun c => clean_char c = true /\ (is_ws c = true -> c = " "%char))
        (list_ascii_of_string (App.footerCode (App.qrdata e))) /\
      trimmed (list_ascii_of_string (App.footerCode (App.qrdata e))))).
Proof.
  intros e. assert (H : App.processImage nat sample_recognize "DEFAULT" "F-01" true O 1%nat 20
    "1" "a.png" (App.Decoded (Some sample_qris)) = Some e) by (vm_compute; reflexivity).
  exact (conj H (processImage_subtitle_footer _ _ _ _ _ _ _ _ _ _ _ _ H)).
Defined.

Lemma handleBulkUpload_then_save_witness :
  let files := [("1", "a.png", App.Decoded (Some sample_qris));
                ("2", "b.png", App.Decoded None)]%string in
  let entries' := [sample_entry; App.failed_entry "2" "b.png" "QR Code tidak terdeteksi"] in
  App.handleBulkUpload nat sample_recognize "DEFAULT" "F-01" true O 1%nat 20 files []
    = Some entries' /\
  (files = [] -> entries' = []) /\
  (files <> [] ->
     List.length entries' = List.length files /\
     List.map App.fileName entries' = List.map (fun '(_, name, _) => name) files /\
     exists rows, App.handleSaveAllBulk [] entries' = [] ++ rows /\
       List.map App.qrContent rows = decoded_codes files /\
       List.Forall (fun q => App.title q <> EmptyString /\
                             startsWith (App.nominal q) "Rp. " = true) rows).
Proof.
  intros files entries'.
  assert (H : App.handleBulkUpload nat sample_recognize "DEFAULT" "F-01" true O 1%nat 20 files []
    = Some entries') by (vm_compute; reflexivity).
  exact (conj H (handleBulkUpload_then_save _ _ _ _ _ _ _ _ _ _ _ [] H)).
Defined.
